(** * NeoPixel rainbow driver: HSV to GRB conversion and the animation step

    Shallow embedding of [main/esp32s3_onboard_LED.c] and
    [main/led_strip_example_main.c].  Integers are [Z] with the C
    conversions written out; [float] is IEEE 754 binary32 and [double]
    binary64, both through the parametric operations of [SpecFloat].
    Every floating-point operation is evaluated in the type C gives it
    and rounds once, to nearest with ties to even; the calls to [fmod]
    and [fabs] of <math.h> take and return [double]. *)

From Stdlib Require Import ZArith List Bool Lia.
From Stdlib Require Import Floats.SpecFloat.
Import ListNotations.
Local Open Scope Z_scope.

(** ** Machine integers *)

Module CInt.

(** Conversion of an integer argument to [uint16_t] / [uint8_t]. *)
Definition to_uint16 (z : Z) : Z := z mod 65536.
Definition to_uint8 (z : Z) : Z := z mod 256.

End CInt.

(** ** Floating point: [float] and [double] of the target *)

Module CFloat.

Definition float := spec_float.
Definition double := spec_float.

(** binary32 *)
Definition fprec : Z := 24.
Definition femax : Z := 128.
(** binary64 *)
Definition dprec : Z := 53.
Definition demax : Z := 1024.

Definition signed (s : bool) (m : positive) : Z := cond_Zopp s (Zpos m).

(** Integer to [float] / [double] (round to nearest even). *)
Definition float_of_int (z : Z) : float := binary_normalize fprec femax z 0 false.
Definition double_of_int (z : Z) : double := binary_normalize dprec demax z 0 false.

(** The usual promotion [float] -> [double] (exact) and the rounding
    conversion [double] -> [float] performed by an assignment. *)
Definition double_of_float (x : float) : double :=
  match x with
  | S754_finite s m e => binary_normalize dprec demax (signed s m) e s
  | _ => x
  end.

Definition float_of_double (x : double) : float :=
  match x with
  | S754_finite s m e => binary_normalize fprec femax (signed s m) e s
  | _ => x
  end.

Definition fadd : float -> float -> float := SFadd fprec femax.
Definition fsub : float -> float -> float := SFsub fprec femax.
Definition fmul : float -> float -> float := SFmul fprec femax.
Definition fdiv : float -> float -> float := SFdiv fprec femax.

Definition dsub : double -> double -> double := SFsub dprec demax.
Definition dmul : double -> double -> double := SFmul dprec demax.

(** [fabs] of <math.h>. *)
Definition fabs (x : double) : double := SFabs x.

(** [fmod] of <math.h>: [x - n*y] with [n] the quotient truncated
    toward zero; the result is exact and has the sign of [x]. *)
Definition fmod (x y : double) : double :=
  match x, y with
  | S754_nan, _ | _, S754_nan => S754_nan
  | S754_infinity _, _ => S754_nan
  | _, S754_zero _ => S754_nan
  | _, S754_infinity _ => x
  | S754_zero _, S754_finite _ _ _ => x
  | S754_finite sx mx ex, S754_finite _ my ey =>
      let ez := Z.min ex ey in
      let ax := Zpos (fst (shl_align mx ex ez)) in
      let ay := Zpos (fst (shl_align my ey ez)) in
      binary_normalize dprec demax (cond_Zopp sx (Z.rem ax ay)) ez sx
  end.

(** Integral part of a finite value, truncated toward zero. *)
Definition trunc (x : spec_float) : option Z :=
  match x with
  | S754_zero _ => Some 0
  | S754_finite s m e =>
      Some (cond_Zopp s (match e with
                         | Zneg p => Z.shiftr (Zpos m) (Zpos p)
                         | _ => Z.shiftl (Zpos m) e
                         end))
  | _ => None
  end.

(** Conversion [float] -> [uint8_t]: the fraction is discarded; C
    defines the result only when the integral part fits the type. *)
Definition uint8_of_float (x : float) : option Z :=
  match trunc x with
  | Some z => if (0 <=? z) && (z <=? 255) then Some z else None
  | None => None
  end.

End CFloat.

(** ** The colour converter *)

Module Onboard.
Import CFloat.

(** The hue-to-RGB selection of [hsv_to_grb] (the chain of [h < ...]
    tests); the result is the triple [(r, g, b)]. *)
Definition select_rgb (h : Z) (C X : float) : float * float * float :=
  if h <? 60 then (C, X, float_of_int 0)
  else if h <? 120 then (X, C, float_of_int 0)
  else if h <? 180 then (float_of_int 0, C, X)
  else if h <? 240 then (float_of_int 0, X, C)
  else if h <? 300 then (X, float_of_int 0, C)
  else (C, float_of_int 0, X).

(** [hsv_to_grb] of [esp32s3_onboard_LED.c].  The arguments arrive
    through [uint16_t] and [uint8_t] parameters; the three bytes stored
    through [grb] are returned in index order, [None] when one of the
    stores has no defined value. *)
Definition hsv_to_grb (h s v : Z) : option (list Z) :=
  let h := CInt.to_uint16 h in
  let s := CInt.to_uint8 s in
  let v := CInt.to_uint8 v in
  let h := CInt.to_uint16 (Z.rem h 360) in
  let S := fdiv (float_of_int s) (float_of_int 100) in
  let V := fdiv (float_of_int v) (float_of_int 100) in
  let C := fmul V S in
  let X := float_of_double
             (dmul (double_of_float C)
                (dsub (double_of_int 1)
                   (fabs (dsub (fmod (double_of_float
                                        (fdiv (float_of_int h) (float_of_int 60)))
                                  (double_of_int 2))
                            (double_of_int 1))))) in
  let m := fsub V C in
  let '(r, g, b) := select_rgb h C X in
  match uint8_of_float (fmul (fadd g m) (float_of_int 255)) with
  | None => None
  | Some grb0 =>
    match uint8_of_float (fmul (fadd r m) (float_of_int 255)) with
    | None => None
    | Some grb1 =>
      match uint8_of_float (fmul (fadd b m) (float_of_int 255)) with
      | None => None
      | Some grb2 => Some [grb0; grb1; grb2]
      end
    end
  end.

End Onboard.

Module Example.
Import CFloat.

(** [hsv_to_grb] of [led_strip_example_main.c]. *)
Definition hsv_to_grb (h s v : Z) : option (list Z) :=
  let h := CInt.to_uint16 h in
  let s := CInt.to_uint8 s in
  let v := CInt.to_uint8 v in
  let h := CInt.to_uint16 (Z.rem h 360) in
  let S := fdiv (float_of_int s) (float_of_int 100) in
  let V := fdiv (float_of_int v) (float_of_int 100) in
  let C := fmul V S in
  let X := float_of_double
             (dmul (double_of_float C)
                (dsub (double_of_int 1)
                   (fabs (dsub (fmod (double_of_float
                                        (fdiv (float_of_int h) (float_of_int 60)))
                                  (double_of_int 2))
                            (double_of_int 1))))) in
  let m := fsub V C in
  let '(r, g, b) :=
    if h <? 60 then (C, X, float_of_int 0)
    else if h <? 120 then (X, C, float_of_int 0)
    else if h <? 180 then (float_of_int 0, C, X)
    else if h <? 240 then (float_of_int 0, X, C)
    else if h <? 300 then (X, float_of_int 0, C)
    else (C, float_of_int 0, X) in
  match uint8_of_float (fmul (fadd g m) (float_of_int 255)) with
  | None => None
  | Some grb0 =>
    match uint8_of_float (fmul (fadd r m) (float_of_int 255)) with
    | None => None
    | Some grb1 =>
      match uint8_of_float (fmul (fadd b m) (float_of_int 255)) with
      | None => None
      | Some grb2 => Some [grb0; grb1; grb2]
      end
    end
  end.

End Example.

(** ** The conversion as the specification words it *)

Module ColorConverter.
Import CFloat.

Record rgb := { red : Z; green : Z; blue : Z }.

(** The six 60-degree sectors and their assignment of [{C, X, 0}] to
    the channels [(r, g, b)]. *)
Definition sector_rgb (k : Z) (C X : float) : float * float * float :=
  match k with
  | 0 => (C, X, S754_zero false)
  | 1 => (X, C, S754_zero false)
  | 2 => (S754_zero false, C, X)
  | 3 => (S754_zero false, X, C)
  | 4 => (X, S754_zero false, C)
  | _ => (C, S754_zero false, X)
  end.

(** Add the offset, scale by 255, truncate to eight bits. *)
Definition channel (c m : float) : option Z :=
  uint8_of_float (fmul (fadd c m) (float_of_int 255)).

(** The standard HSV to RGB result, channels in the order r, g, b,
    over the converter's parameter types: normalise the hue modulo 360,
    take chroma [C = V * S], the secondary value
    [X = C * (1 - |(H / 60) mod 2 - 1|)] and the offset [m = V - C],
    pick the sector's triple, then add [m], scale by 255 and truncate. *)
Definition raw_rgb (h s v : Z) : option rgb :=
  let H := (CInt.to_uint16 h) mod 360 in
  let S := fdiv (float_of_int (CInt.to_uint8 s)) (float_of_int 100) in
  let V := fdiv (float_of_int (CInt.to_uint8 v)) (float_of_int 100) in
  let C := fmul V S in
  let H' := double_of_float (fdiv (float_of_int H) (float_of_int 60)) in
  let X := float_of_double
             (dmul (double_of_float C)
                (dsub (double_of_int 1)
                   (fabs (dsub (fmod H' (double_of_int 2)) (double_of_int 1))))) in
  let m := fsub V C in
  let '(r, g, b) := sector_rgb (H / 60) C X in
  match channel r m, channel g m, channel b m with
  | Some r8, Some g8, Some b8 => Some {| red := r8; green := g8; blue := b8 |}
  | _, _, _ => None
  end.

(** The wire order of the LED: green, red, blue. *)
Definition wire (c : rgb) : list Z := [green c; red c; blue c].

End ColorConverter.

(** ** The RMT peripheral driver and the console, as the program sees them *)

Module Rmt.

Definition esp_err_t := Z.
Definition ESP_OK : esp_err_t := 0.

(** [rmt_channel_handle_t] and [rmt_encoder_handle_t]; [NULL] is 0. *)
Definition handle := Z.

Record rmt_tx_channel_config_t := {
  clk_src : Z;
  gpio_num : Z;
  mem_block_symbols : Z;
  resolution_hz : Z;
  trans_queue_depth : Z
}.

Record led_strip_encoder_config_t := { resolution : Z }.

Record rmt_transmit_config_t := { loop_count : Z }.

(** The calls into the SDK.  Each one acts on the state [World] of the
    peripheral and reports an [esp_err_t]; the two constructors also
    deliver the handle they store through their out-parameter.
    [vTaskDelay_ms d] stands for [vTaskDelay(pdMS_TO_TICKS(d))]. *)
Class driver (World : Type) := {
  RMT_CLK_SRC_DEFAULT : Z;
  rmt_new_tx_channel :
    rmt_tx_channel_config_t -> World -> esp_err_t * handle * World;
  rmt_new_led_strip_encoder :
    led_strip_encoder_config_t -> World -> esp_err_t * handle * World;
  rmt_enable : handle -> World -> esp_err_t * World;
  rmt_transmit :
    handle -> handle -> list Z -> Z -> rmt_transmit_config_t -> World ->
    esp_err_t * World;
  vTaskDelay_ms : Z -> World -> World
}.

End Rmt.

(** ** The animation driver of [esp32s3_onboard_LED.c] *)

Module Driver.
Import Rmt.

Definition LED_GPIO : Z := 48.
Definition RAINBOW_SPEED : Z := 20.
Definition HUE_STEP : Z := 2.
Definition RMT_RESOLUTION_HZ : Z := 10000000.
Definition RMT_MEM_BLOCKS : Z := 64.

Record led_controller_t := {
  channel : handle;
  encoder : handle;
  grb_data : list Z;
  current_hue : Z
}.

(** What [ESP_LOGI] prints: the start banner, or a hue with its bytes. *)
Inductive log_event :=
| Starting
| HueRecord (hue : Z) (grb0 grb1 grb2 : Z).

(** The hue update at the end of [update_led_color]. *)
Definition next_hue (h : Z) : Z := CInt.to_uint16 (Z.rem (h + HUE_STEP) 360).

(** The test guarding the debug output. *)
Definition logs_at (h : Z) : bool := Z.rem h 10 =? 0.

Section Program.
Context {World : Type} {drv : driver World}.

Record machine := {
  world : World;
  controller : led_controller_t;
  console : list log_event
}.

(** A call returns, or the program is aborted with an error code, or
    its behaviour is undefined. *)
Inductive outcome (A : Type) :=
| Done (a : A) (m : machine)
| Aborted (e : esp_err_t) (m : machine)
| Undefined.
Arguments Done {A}.
Arguments Aborted {A}.
Arguments Undefined {A}.

Definition M (A : Type) := machine -> outcome A.

Definition ret {A} (a : A) : M A := fun m => Done a m.

Definition bind {A B} (c : M A) (k : A -> M B) : M B :=
  fun m =>
    match c m with
    | Done a m' => k a m'
    | Aborted e m' => Aborted e m'
    | Undefined => Undefined
    end.

Notation "x <- c ;; k" := (bind c (fun x => k))
  (at level 61, c at next level, right associativity).
Notation "c ;; k" := (bind c (fun _ => k))
  (at level 61, right associativity).

Definition get_controller : M led_controller_t := fun m => Done (controller m) m.

Definition set_controller (c : led_controller_t) : M unit :=
  fun m => Done tt {| world := world m; controller := c; console := console m |}.

(** A call into the SDK. *)
Definition sdk {A} (f : World -> A * World) : M A :=
  fun m =>
    let '(a, w) := f (world m) in
    Done a {| world := w; controller := controller m; console := console m |}.

(** A value the C standard may leave undefined. *)
Definition defined {A} (o : option A) : M A :=
  fun m => match o with Some a => Done a m | None => Undefined end.

(** Modelled from the spec: the SDK macro [ESP_ERROR_CHECK], absent from
    the sources, under the "abort on any peripheral error" policy: any
    code other than [ESP_OK] aborts the program. *)
Definition ESP_ERROR_CHECK (e : esp_err_t) : M unit :=
  fun m => if e =? ESP_OK then Done tt m else Aborted e m.

(** Modelled from the spec: the SDK macro [ESP_LOGI], absent from the
    sources, hands one record to the observability sink. *)
Definition ESP_LOGI (ev : log_event) : M unit :=
  fun m => Done tt {| world := world m; controller := controller m;
                      console := console m ++ [ev] |}.

Definition initialize_led_controller : M led_controller_t :=
  let controller :=
    {| channel := 0; encoder := 0; grb_data := [0; 0; 0]; current_hue := 0 |} in
  let tx_chan_config :=
    {| clk_src := RMT_CLK_SRC_DEFAULT;
       gpio_num := LED_GPIO;
       mem_block_symbols := RMT_MEM_BLOCKS;
       resolution_hz := RMT_RESOLUTION_HZ;
       trans_queue_depth := 4 |} in
  r <- sdk (fun w => let '(e, h, w') := rmt_new_tx_channel tx_chan_config w in
                     ((e, h), w')) ;;
  let controller :=
    {| channel := snd r; encoder := encoder controller;
       grb_data := grb_data controller; current_hue := current_hue controller |} in
  ESP_ERROR_CHECK (fst r) ;;
  let encoder_config := {| resolution := RMT_RESOLUTION_HZ |} in
  r <- sdk (fun w => let '(e, h, w') := rmt_new_led_strip_encoder encoder_config w in
                     ((e, h), w')) ;;
  let controller :=
    {| channel := channel controller; encoder := snd r;
       grb_data := grb_data controller; current_hue := current_hue controller |} in
  ESP_ERROR_CHECK (fst r) ;;
  e <- sdk (rmt_enable (channel controller)) ;;
  ESP_ERROR_CHECK e ;;
  ret controller.

Definition update_led_color : M unit :=
  c <- get_controller ;;
  grb <- defined (Onboard.hsv_to_grb (current_hue c) 100 100) ;;
  set_controller {| channel := channel c; encoder := encoder c;
                    grb_data := grb; current_hue := current_hue c |} ;;
  let tx_config := {| loop_count := 0 |} in
  c <- get_controller ;;
  e <- sdk (rmt_transmit (channel c) (encoder c) (grb_data c) 3 tx_config) ;;
  ESP_ERROR_CHECK e ;;
  c <- get_controller ;;
  (if logs_at (current_hue c)
   then ESP_LOGI (HueRecord (current_hue c)
                    (nth 0 (grb_data c) 0) (nth 1 (grb_data c) 0) (nth 2 (grb_data c) 0))
   else ret tt) ;;
  c <- get_controller ;;
  set_controller {| channel := channel c; encoder := encoder c;
                    grb_data := grb_data c; current_hue := next_hue (current_hue c) |}.

(** The body of [while (1)] in [app_main], repeated [n] times. *)
Fixpoint rainbow_loop (n : nat) : M unit :=
  match n with
  | O => ret tt
  | S n' =>
      update_led_color ;;
      sdk (fun w => (tt, vTaskDelay_ms RAINBOW_SPEED w)) ;;
      rainbow_loop n'
  end.

(** [app_main], its endless loop cut after [n] rounds. *)
Definition app_main (n : nat) : M unit :=
  ESP_LOGI Starting ;;
  c <- initialize_led_controller ;;
  set_controller c ;;
  rainbow_loop n.

(** The machine at power-up: nothing printed yet, and whatever bits
    [junk] the memory of [app_main]'s controller happens to hold. *)
Definition boot (w : World) (junk : led_controller_t) : machine :=
  {| world := w; controller := junk; console := [] |}.

End Program.

Arguments machine World : clear implicits.
Arguments outcome World A : clear implicits.
Arguments Done {World A}.
Arguments Aborted {World A}.
Arguments Undefined {World A}.

End Driver.

(** ** Test benches: two concrete peripherals *)

Module Bench.
Import Rmt.

Definition ESP_FAIL : esp_err_t := -1.

(** A peripheral that accepts every call; its state counts the frames
    that went out. *)
Definition steady : driver nat :=
  {| RMT_CLK_SRC_DEFAULT := 4;
     rmt_new_tx_channel := fun _ w => (ESP_OK, 1, w);
     rmt_new_led_strip_encoder := fun _ w => (ESP_OK, 2, w);
     rmt_enable := fun _ w => (ESP_OK, w);
     rmt_transmit := fun _ _ _ _ _ w => (ESP_OK, S w);
     vTaskDelay_ms := fun _ w => w |}.

(** A peripheral whose transmission fails once [k] frames went out. *)
Definition faulty (k : nat) : driver nat :=
  {| RMT_CLK_SRC_DEFAULT := 4;
     rmt_new_tx_channel := fun _ w => (ESP_OK, 1, w);
     rmt_new_led_strip_encoder := fun _ w => (ESP_OK, 2, w);
     rmt_enable := fun _ w => (ESP_OK, w);
     rmt_transmit := fun _ _ _ _ _ w =>
       if Nat.eqb w k then (ESP_FAIL, w) else (ESP_OK, S w);
     vTaskDelay_ms := fun _ w => w |}.

(** Stale memory, and a controller as start-up leaves it. *)
Definition junk : Driver.led_controller_t :=
  {| Driver.channel := 7; Driver.encoder := 9;
     Driver.grb_data := [1; 2; 3]; Driver.current_hue := 12345 |}.

Definition fresh : Driver.led_controller_t :=
  {| Driver.channel := 1; Driver.encoder := 2;
     Driver.grb_data := [0; 0; 0]; Driver.current_hue := 0 |}.

End Bench.

(** ** Traces, checkers and the states a run passes through *)

Module Runs.

(** The hues [0 .. 359]. *)
Definition hues : list Z := map Z.of_nat (seq 0 360).

(** The frame at full saturation and value is defined and holds both a
    255 and a 0. *)
Definition full_frame_ok (h : Z) : bool :=
  match Onboard.hsv_to_grb h 100 100 with
  | Some [g; r; b] =>
      existsb (Z.eqb 255) [g; r; b] && existsb (Z.eqb 0) [g; r; b]
  | _ => false
  end.

(** The hues at which [n] successive steps start. *)
Fixpoint hue_trace (n : nat) (h : Z) : list Z :=
  match n with
  | O => []
  | S n' => h :: hue_trace n' (Driver.next_hue h)
  end.

Definition record_hue (ev : Driver.log_event) : option Z :=
  match ev with
  | Driver.HueRecord h _ _ _ => Some h
  | Driver.Starting => None
  end.

Definition is_record (ev : Driver.log_event) : bool :=
  match ev with
  | Driver.HueRecord _ _ _ _ => true
  | Driver.Starting => false
  end.

Section Steps.
Import Rmt Driver.
Context {World : Type} {drv : driver World}.

Definition hue (m : machine World) : Z := current_hue (controller m).

(** The transmission [update_led_color] requests in [m] for frame [grb]. *)
Definition transmission (m : machine World) (grb : list Z) : esp_err_t * World :=
  rmt_transmit (channel (controller m)) (encoder (controller m)) grb 3
    {| loop_count := 0 |} (world m).

(** The machine when [ESP_ERROR_CHECK] aborts the step: the frame is
    in [grb_data], the peripheral is in state [w]. *)
Definition at_abort (m : machine World) (grb : list Z) (w : World) : machine World :=
  {| world := w;
     controller := {| channel := channel (controller m);
                      encoder := encoder (controller m);
                      grb_data := grb;
                      current_hue := hue m |};
     console := console m |}.

(** The machine after a step whose transmission succeeded. *)
Definition after_step (m : machine World) (grb : list Z) (w : World) : machine World :=
  {| world := w;
     controller := {| channel := channel (controller m);
                      encoder := encoder (controller m);
                      grb_data := grb;
                      current_hue := next_hue (hue m) |};
     console :=
       if logs_at (hue m)
       then console m ++ [HueRecord (hue m) (nth 0 grb 0) (nth 1 grb 0) (nth 2 grb 0)]
       else console m |}.

(** The machine after the [vTaskDelay] that follows a step. *)
Definition delayed (m : machine World) : machine World :=
  {| world := vTaskDelay_ms RAINBOW_SPEED (world m);
     controller := controller m;
     console := console m |}.

(** The states the program passes through: after start-up, after each
    step (completed or aborted) and after each delay. *)
Inductive reachable : machine World -> Prop :=
| reach_start w junk m : app_main 0 (boot w junk) = Done tt m -> reachable m
| reach_step m m' : reachable m -> update_led_color m = Done tt m' -> reachable m'
| reach_abort m e m' : reachable m -> update_led_color m = Aborted e m' -> reachable m'
| reach_delay m : reachable m -> reachable (delayed m).

End Steps.

End Runs.

(** ** The converter by the quantities its stores depend on *)

Module Wheel.
Import CFloat.

(** [s / 100.0f] and [v / 100.0f]. *)
Definition percent (p : Z) : float := fdiv (float_of_int p) (float_of_int 100).

(** The [double] factor [1 - fabs(fmod(h / 60.0f, 2) - 1)] of [X]. *)
Definition hue_factor (H : Z) : double :=
  dsub (double_of_int 1)
    (fabs (dsub (fmod (double_of_float (fdiv (float_of_int H) (float_of_int 60)))
                   (double_of_int 2))
             (double_of_int 1))).

(** One store of [hsv_to_grb]: [(c + m) * 255] into a byte. *)
Definition store (c m : float) : option Z :=
  uint8_of_float (fmul (fadd c m) (float_of_int 255)).

(** The end of [hsv_to_grb], from the normalised hue [H], the chroma
    [C], the offset [m] and the factor [F]. *)
Definition stores (H : Z) (C m : float) (F : double) : option (list Z) :=
  let X := float_of_double (dmul (double_of_float C) F) in
  let '(r, g, b) := Onboard.select_rgb H C X in
  match store g m with
  | None => None
  | Some grb0 =>
    match store r m with
    | None => None
    | Some grb1 =>
      match store b m with
      | None => None
      | Some grb2 => Some [grb0; grb1; grb2]
      end
    end
  end.

(** The hues [0 .. 359] with their factors, evaluated once. *)
Definition hue_factors : list (Z * double) :=
  Eval vm_compute in map (fun H => (H, hue_factor H)) Runs.hues.

(** The integers [a, a+1, ..., a+n-1]. *)
Definition Zrange (a : Z) (n : nat) : list Z := map (fun k => a + Z.of_nat k) (seq 0 n).

(** The byte of brightness [v] percent. *)
Definition level (v : Z) : Z := 255 * v / 100.

(** The least byte of a frame at value 100 and saturation [s]; the
    rounding of [1 - s / 100.0f] costs one unit at 60 and at 80. *)
Definition white_level (s : Z) : Z :=
  255 * (100 - s) / 100 - (if (s =? 60) || (s =? 80) then 1 else 0).

Definition frame_within (lo hi : Z) (f : list Z) : bool :=
  existsb (Z.eqb lo) f && existsb (Z.eqb hi) f
  && forallb (fun x => (lo <=? x) && (x <=? hi)) f.

(** Saturation 100, value [v]: on every hue the frame is defined, its
    greatest byte is [level v] and its least byte is 0. *)
Definition full_saturation_ok (v : Z) : bool :=
  let V := percent v in
  let C := fmul V (percent 100) in
  let m := fsub V C in
  forallb (fun hf =>
             match stores (fst hf) C m (snd hf) with
             | Some [g; r; b] => frame_within 0 (level v) [g; r; b]
             | _ => false
             end) hue_factors.

(** Value 100, saturation [s]: on every hue the frame is defined, its
    greatest byte is 255 and its least byte is [white_level s]. *)
Definition full_value_ok (s : Z) : bool :=
  let V := percent 100 in
  let C := fmul V (percent s) in
  let m := fsub V C in
  forallb (fun hf =>
             match stores (fst hf) C m (snd hf) with
             | Some [g; r; b] => frame_within (white_level s) 255 [g; r; b]
             | _ => false
             end) hue_factors.

(** The factor is a finite number that is not negative. *)
Definition factor_ok (F : double) : bool :=
  match F with
  | S754_zero false | S754_finite false _ _ => true
  | _ => false
  end.

(** Saturation 0, value [v]: chroma is +0, the offset is [V] and the
    store of a zero channel gives [level v]. *)
Definition grey_ok (v : Z) : bool :=
  let V := percent v in
  match fmul V (percent 0), store (S754_zero false) (fsub V (fmul V (percent 0))) with
  | S754_zero false, Some k => k =? level v
  | _, _ => false
  end.

(** Value 0, saturation [s]: chroma and offset are +0. *)
Definition black_ok (s : Z) : bool :=
  let V := percent 0 in
  match fmul V (percent s), fsub V (fmul V (percent s)) with
  | S754_zero false, S754_zero false => true
  | _, _ => false
  end.

(** Value [v] above 100: the store of the chroma channel has no
    defined value, whatever the saturation byte. *)
Definition overbright_ok (v : Z) : bool :=
  let V := percent v in
  forallb (fun S =>
             let C := fmul V S in
             match store C (fsub V C) with None => true | Some _ => false end)
    (map percent (Zrange 0 256)).

(** Saturation [s] above 100: the store of the zero channel has no
    defined value as soon as [v * (s - 100) >= 40]. *)
Definition oversaturated_ok (s : Z) : bool :=
  let S := percent s in
  forallb (fun v =>
             let V := percent v in
             let C := fmul V S in
             if 40 <=? v * (s - 100)
             then match store (S754_zero false) (fsub V C) with
                  | None => true
                  | Some _ => false
                  end
             else true)
    (Zrange 0 101).

(** The frame the driver sends at hue [h]. *)
Definition frame_at (h : Z) : list Z :=
  match Onboard.hsv_to_grb h 100 100 with
  | Some f => f
  | None => []
  end.

(** How many bytes differ between two frames, and by how much in all. *)
Fixpoint changed_bytes (f f' : list Z) : nat :=
  match f, f' with
  | x :: t, y :: t' => ((if Z.eqb x y then 0 else 1) + changed_bytes t t')%nat
  | _, _ => O
  end.

Fixpoint total_change (f f' : list Z) : Z :=
  match f, f' with
  | x :: t, y :: t' => Z.abs (x - y) + total_change t t'
  | _, _ => 0
  end.

(** One animation step moves exactly one byte, by 8 or 9. *)
Definition smooth_step_ok (h : Z) : bool :=
  let f := frame_at h in
  let f' := frame_at (Driver.next_hue h) in
  Nat.eqb (changed_bytes f f') 1
  && (8 <=? total_change f f') && (total_change f f' <=? 9).

Definition frame_eqb (f f' : list Z) : bool :=
  Nat.eqb (length f) (length f') && Nat.eqb (changed_bytes f f') 0.

(** No element of the list occurs twice, up to [eqb]. *)
Fixpoint distinctb {A} (eqb : A -> A -> bool) (l : list A) : bool :=
  match l with
  | [] => true
  | x :: t => negb (existsb (eqb x) t) && distinctb eqb t
  end.

End Wheel.

(** ** The flat program of [led_strip_example_main.c] *)

Module ExampleMain.
Import Rmt Driver.

Definition LED_GPIO : Z := 48.
Definition RAINBOW_SPEED : Z := 20.
Definition HUE_STEP : Z := 2.

Section Program.
Context {World : Type} {drv : driver World}.

Local Notation "x <- c ;; k" := (bind c (fun x => k))
  (at level 61, c at next level, right associativity).
Local Notation "c ;; k" := (bind c (fun _ => k))
  (at level 61, right associativity).

(** The body of [while(1)] in [app_main], repeated [n] times over the
    locals [led_chan], [led_encoder], [tx_config], [grb_data] and
    [hue]; the locals that change are returned. *)
Fixpoint rainbow (n : nat) (led_chan led_encoder : handle)
    (tx_config : rmt_transmit_config_t) (grb_data : list Z) (hue : Z)
    : M (list Z * Z) :=
  match n with
  | O => ret (grb_data, hue)
  | S n' =>
      grb_data <- defined (Example.hsv_to_grb hue 100 100) ;;
      e <- sdk (rmt_transmit led_chan led_encoder grb_data 3 tx_config) ;;
      ESP_ERROR_CHECK e ;;
      (if Z.rem hue 10 =? 0
       then ESP_LOGI (HueRecord hue
                        (nth 0 grb_data 0) (nth 1 grb_data 0) (nth 2 grb_data 0))
       else ret tt) ;;
      let hue := CInt.to_uint16 (Z.rem (hue + HUE_STEP) 360) in
      sdk (fun w => (tt, vTaskDelay_ms RAINBOW_SPEED w)) ;;
      rainbow n' led_chan led_encoder tx_config grb_data hue
  end.

(** [app_main] of the example, its endless loop cut after [n] rounds. *)
Definition app_main (n : nat) : M (list Z * Z) :=
  ESP_LOGI Starting ;;
  let led_chan := 0 in
  let tx_chan_config :=
    {| clk_src := RMT_CLK_SRC_DEFAULT;
       gpio_num := LED_GPIO;
       mem_block_symbols := 64;
       resolution_hz := 10 * 1000 * 1000;
       trans_queue_depth := 4 |} in
  r <- sdk (fun w => let '(e, h, w') := rmt_new_tx_channel tx_chan_config w in
                     ((e, h), w')) ;;
  let led_chan := snd r in
  ESP_ERROR_CHECK (fst r) ;;
  let led_encoder := 0 in
  let encoder_config := {| resolution := 10 * 1000 * 1000 |} in
  r <- sdk (fun w => let '(e, h, w') := rmt_new_led_strip_encoder encoder_config w in
                     ((e, h), w')) ;;
  let led_encoder := snd r in
  ESP_ERROR_CHECK (fst r) ;;
  e <- sdk (rmt_enable led_chan) ;;
  ESP_ERROR_CHECK e ;;
  let grb_data := [0; 0; 0] in
  let tx_config := {| loop_count := 0 |} in
  let hue := 0 in
  rainbow n led_chan led_encoder tx_config grb_data hue.

End Program.
End ExampleMain.

(** ** What a run shows to the outside *)

Module Wire.
Import Rmt Driver.

(** What can be seen of a program cut after some rounds: the state of
    the peripheral, the console, and either the frame and hue it holds
    or the error code it was aborted with. *)
Inductive observation (World : Type) :=
| Running (w : World) (log : list log_event) (frame : list Z) (hue : Z)
| Halted (e : esp_err_t) (w : World) (log : list log_event)
| Unspecified.
Arguments Running {World}.
Arguments Halted {World}.
Arguments Unspecified {World}.

Section Observe.
Context {World : Type} {drv : driver World}.

Definition of_onboard (o : outcome World unit) : observation World :=
  match o with
  | Done _ m =>
      Running (world m) (console m) (grb_data (controller m))
        (current_hue (controller m))
  | Aborted e m => Halted e (world m) (console m)
  | Undefined => Unspecified
  end.

Definition of_example (o : outcome World (list Z * Z)) : observation World :=
  match o with
  | Done (frame, hue) m => Running (world m) (console m) frame hue
  | Aborted e m => Halted e (world m) (console m)
  | Undefined => Unspecified
  end.

(** The peripheral after [n] rounds that all succeed, from hue [h]:
    each round is one transmission of the frame of the hue, three bytes
    long, and one delay of [RAINBOW_SPEED] ms. *)
Fixpoint peripheral_after (n : nat) (ch enc : handle) (h : Z) (w : World) : World :=
  match n with
  | O => w
  | S n' =>
      peripheral_after n' ch enc (next_hue h)
        (vTaskDelay_ms RAINBOW_SPEED
           (snd (rmt_transmit ch enc (Wheel.frame_at h) 3 {| loop_count := 0 |} w)))
  end.

(** The [tx_chan_config] and [encoder_config] of start-up. *)
Definition channel_request : rmt_tx_channel_config_t :=
  {| clk_src := RMT_CLK_SRC_DEFAULT;
     gpio_num := 48;
     mem_block_symbols := 64;
     resolution_hz := 10000000;
     trans_queue_depth := 4 |}.

Definition encoder_request : led_strip_encoder_config_t :=
  {| resolution := 10000000 |}.

End Observe.

(** A record of the console that matches the wire: its hue is a
    multiple of 10 in [0,360) and its bytes are the frame of that hue. *)
Definition record_ok (ev : log_event) : Prop :=
  match ev with
  | HueRecord h g r b =>
      0 <= h < 360 /\ h mod 10 = 0
      /\ Onboard.hsv_to_grb h 100 100 = Some [g; r; b]
  | Starting => False
  end.

Definition is_byte (x : Z) : Prop := 0 <= x <= 255.

End Wire.

(** ** A test bench whose channel cannot be enabled *)

Module Faults.
Import Rmt.

Definition ESP_ERR_INVALID_STATE : esp_err_t := 259.

(** The channel and the encoder are created, [rmt_enable] fails; the
    state counts the calls made. *)
Definition no_enable : driver nat :=
  {| RMT_CLK_SRC_DEFAULT := 4;
     rmt_new_tx_channel := fun _ w => (ESP_OK, 1, S w);
     rmt_new_led_strip_encoder := fun _ w => (ESP_OK, 2, S w);
     rmt_enable := fun _ w => (ESP_ERR_INVALID_STATE, S w);
     rmt_transmit := fun _ _ _ _ _ w => (ESP_OK, S w);
     vTaskDelay_ms := fun _ w => S w |}.

End Faults.

(** ** Counting the records of a stretch of steps *)

Module Cycle.

(** From an even hue [h], the [n] steps that follow print [k] records. *)
Definition prints_from (n k : nat) (h : Z) : bool :=
  negb (h mod 2 =? 0)
  || Nat.eqb (length (filter Driver.logs_at (Runs.hue_trace n h))) k.

End Cycle.

(** * Facts *)

Module CIntFacts.
Import CInt.

Lemma to_uint16_range z : 0 <= to_uint16 z < 65536.
Proof. unfold to_uint16. apply Z.mod_pos_bound. lia. Qed.

Lemma to_uint16_small z : 0 <= z < 65536 -> to_uint16 z = z.
Proof. intros H. unfold to_uint16. apply Z.mod_small. exact H. Qed.

(** The hue the converter works with, for any integer argument. *)
Lemma hue_normalised h :
  to_uint16 (Z.rem (to_uint16 h) 360) = (h mod 65536) mod 360.
Proof.
  pose proof (to_uint16_range h) as Hr.
  rewrite Z.rem_mod_nonneg by lia.
  unfold to_uint16 in *.
  apply Z.mod_small.
  pose proof (Z.mod_pos_bound (h mod 65536) 360). lia.
Qed.

Lemma hue_normalised_range h : 0 <= (h mod 65536) mod 360 < 360.
Proof. apply Z.mod_pos_bound. lia. Qed.

Lemma hue_normalised_idem h :
  (((h mod 65536) mod 360) mod 65536) mod 360 = (h mod 65536) mod 360.
Proof.
  pose proof (hue_normalised_range h).
  rewrite (Z.mod_small ((h mod 65536) mod 360) 65536) by lia.
  apply Z.mod_small. lia.
Qed.

End CIntFacts.

Module CFloatFacts.
Import CFloat.

(** The float layer on familiar values: 0.1f is 0x3DCCCCCD, 255 and
    1/3 in binary32, and [fmod] keeps the sign of its first argument. *)
Example float_tenth :
  fdiv (float_of_int 1) (float_of_int 10) = S754_finite false 13421773 (-27).
Proof. vm_compute. reflexivity. Qed.

Example float_255 : float_of_int 255 = S754_finite false 16711680 (-16).
Proof. vm_compute. reflexivity. Qed.

Example fmod_eleven_halves :
  fmod (SFdiv dprec demax (double_of_int 11) (double_of_int 2)) (double_of_int 2)
  = SFdiv dprec demax (double_of_int 3) (double_of_int 2)
  /\ fmod (SFdiv dprec demax (double_of_int (-11)) (double_of_int 2)) (double_of_int 2)
     = SFdiv dprec demax (double_of_int (-3)) (double_of_int 2).
Proof. split; vm_compute; reflexivity. Qed.

Example uint8_of_float_truncates :
  uint8_of_float (fdiv (float_of_int 255) (float_of_int 4)) = Some 63
  /\ uint8_of_float (float_of_int 256) = None
  /\ uint8_of_float (float_of_int (-1)) = None.
Proof. repeat split; vm_compute; reflexivity. Qed.

(** At saturation and value 100 the chroma is 1 and the offset is 0. *)
Lemma full_chroma_zero_offset :
  let S := fdiv (float_of_int 100) (float_of_int 100) in
  let V := fdiv (float_of_int 100) (float_of_int 100) in
  fmul V S = float_of_int 1 /\ fsub V (fmul V S) = float_of_int 0.
Proof. split; vm_compute; reflexivity. Qed.

End CFloatFacts.

Module ConverterFacts.
Import CFloat ColorConverter Runs.

Lemma in_hues h : 0 <= h < 360 -> In h hues.
Proof.
  intros H. unfold hues. apply in_map_iff.
  exists (Z.to_nat h). split; [lia | apply in_seq; lia].
Qed.

(** The converter sees its hue argument only through
    [(h mod 2^16) mod 360]. *)
Lemma hsv_to_grb_hue h s v :
  Onboard.hsv_to_grb h s v = Onboard.hsv_to_grb ((h mod 65536) mod 360) s v.
Proof.
  unfold Onboard.hsv_to_grb. cbv zeta.
  rewrite !CIntFacts.hue_normalised, CIntFacts.hue_normalised_idem.
  reflexivity.
Qed.

(** Half-open sector membership of the [<] chain. *)
Lemma select_rgb_sector h C X :
  0 <= h < 360 -> Onboard.select_rgb h C X = sector_rgb (h / 60) C X.
Proof.
  intros Hh. unfold Onboard.select_rgb.
  destruct (h <? 60) eqn:E0.
  { apply Z.ltb_lt in E0. replace (h / 60) with 0 by (Z.div_mod_to_equations; lia).
    reflexivity. }
  destruct (h <? 120) eqn:E1.
  { apply Z.ltb_lt in E1. apply Z.ltb_ge in E0.
    replace (h / 60) with 1 by (Z.div_mod_to_equations; lia). reflexivity. }
  destruct (h <? 180) eqn:E2.
  { apply Z.ltb_lt in E2. apply Z.ltb_ge in E1.
    replace (h / 60) with 2 by (Z.div_mod_to_equations; lia). reflexivity. }
  destruct (h <? 240) eqn:E3.
  { apply Z.ltb_lt in E3. apply Z.ltb_ge in E2.
    replace (h / 60) with 3 by (Z.div_mod_to_equations; lia). reflexivity. }
  destruct (h <? 300) eqn:E4.
  { apply Z.ltb_lt in E4. apply Z.ltb_ge in E3.
    replace (h / 60) with 4 by (Z.div_mod_to_equations; lia). reflexivity. }
  apply Z.ltb_ge in E4.
  replace (h / 60) with 5 by (Z.div_mod_to_equations; lia). reflexivity.
Qed.

Lemma full_frame_all : forallb full_frame_ok hues = true.
Proof. vm_compute. reflexivity. Qed.

(** At full saturation and value every store of the converter is
    defined, whatever the hue argument. *)
Lemma hsv_to_grb_full_defined h :
  exists g r b, Onboard.hsv_to_grb h 100 100 = Some [g; r; b].
Proof.
  rewrite hsv_to_grb_hue.
  pose proof (CIntFacts.hue_normalised_range h) as Hr.
  pose proof full_frame_all as Hall.
  rewrite forallb_forall in Hall.
  specialize (Hall _ (in_hues _ Hr)).
  unfold full_frame_ok in Hall.
  destruct (Onboard.hsv_to_grb ((h mod 65536) mod 360) 100 100)
    as [[|g [|r [|b [|? ?]]]]|]; try discriminate.
  exists g, r, b. reflexivity.
Qed.

(** C1. At full saturation and value the golden frames hold: hue 0
    gives [0,255,0], hue 120 gives [255,0,0], hue 240 gives [0,0,255]
    (and hues 60, 180, 300 give [255,255,0], [255,0,255], [0,255,255]);
    every hue is classified by half-open membership in
    [60k, 60(k+1)), so each boundary hue 60, 120, 180, 240, 300 opens
    its own sector while the hue just below it closes the previous one. *)
Theorem golden_boundaries :
  (Onboard.hsv_to_grb 0 100 100 = Some [0; 255; 0]
   /\ Onboard.hsv_to_grb 120 100 100 = Some [255; 0; 0]
   /\ Onboard.hsv_to_grb 240 100 100 = Some [0; 0; 255])
  /\ (Onboard.hsv_to_grb 60 100 100 = Some [255; 255; 0]
      /\ Onboard.hsv_to_grb 180 100 100 = Some [255; 0; 255]
      /\ Onboard.hsv_to_grb 300 100 100 = Some [0; 255; 255])
  /\ (forall k C X, In k [1; 2; 3; 4; 5] ->
        Onboard.select_rgb (60 * k) C X = sector_rgb k C X
        /\ Onboard.select_rgb (60 * k - 1) C X = sector_rgb (k - 1) C X)
  /\ (forall k h C X, 0 <= k < 6 -> 60 * k <= h < 60 * (k + 1) ->
        Onboard.select_rgb h C X = sector_rgb k C X).
Proof.
  split; [|split; [|split]].
  - repeat split; vm_compute; reflexivity.
  - repeat split; vm_compute; reflexivity.
  - intros k C X Hk. simpl in Hk.
    destruct Hk as [<-|[<-|[<-|[<-|[<-|[]]]]]]; split; reflexivity.
  - intros k h C X Hk Hh.
    rewrite select_rgb_sector by lia.
    replace (h / 60) with k by (Z.div_mod_to_equations; lia). reflexivity.
Qed.

Lemma golden_boundaries_witness :
  In 3 [1; 2; 3; 4; 5] /\ 0 <= 3 < 6 /\ 60 * 3 <= 180 < 60 * (3 + 1)
  /\ Onboard.select_rgb 180 (float_of_int 1) (float_of_int 0)
     = sector_rgb 3 (float_of_int 1) (float_of_int 0).
Proof.
  split; [simpl; tauto|]. split; [lia|]. split; [lia|].
  apply (proj2 (proj2 (proj2 golden_boundaries))); lia.
Defined.

(** The bytes stored are the standard result in wire order. *)
Lemma hsv_to_grb_wire h s v :
  Onboard.hsv_to_grb h s v = option_map wire (raw_rgb h s v).
Proof.
  unfold Onboard.hsv_to_grb, raw_rgb. cbv zeta.
  rewrite !CIntFacts.hue_normalised.
  rewrite (select_rgb_sector _ _ _ (CIntFacts.hue_normalised_range h)).
  unfold CInt.to_uint16.
  destruct (sector_rgb _ _ _) as [[r g] b].
  unfold channel.
  repeat match goal with
         | |- context [uint8_of_float ?x] => destruct (uint8_of_float x)
         end; reflexivity.
Qed.

(** On the animation's inputs the standard result is defined. *)
Lemma raw_rgb_full_defined h : exists c, raw_rgb h 100 100 = Some c.
Proof.
  destruct (hsv_to_grb_full_defined h) as (g & r & b & E).
  rewrite hsv_to_grb_wire in E.
  destruct (raw_rgb h 100 100) as [c|]; [exists c; reflexivity | discriminate].
Qed.

(** C2. For every input triple, in particular for every hue with
    saturation and value in [0,100], the converter's output is the
    standard HSV to RGB result reordered and nothing else: byte 0 is the
    computed green channel, byte 1 the red channel, byte 2 the blue
    channel; the output is defined exactly when that result is. *)
Theorem hsv_to_grb_reorders_rgb h s v :
  Onboard.hsv_to_grb h s v = option_map wire (raw_rgb h s v)
  /\ (forall c, raw_rgb h s v = Some c ->
        exists frame, Onboard.hsv_to_grb h s v = Some frame
          /\ length frame = 3%nat
          /\ nth 0 frame 0 = green c
          /\ nth 1 frame 0 = red c
          /\ nth 2 frame 0 = blue c)
  /\ (forall frame, Onboard.hsv_to_grb h s v = Some frame ->
        exists c, raw_rgb h s v = Some c /\ frame = [green c; red c; blue c]).
Proof.
  pose proof (hsv_to_grb_wire h s v) as E.
  split; [exact E|]. split.
  - intros c Hc. rewrite E, Hc. simpl.
    exists (wire c). repeat split.
  - intros frame Hf. rewrite E in Hf.
    destruct (raw_rgb h s v) as [c|]; simpl in Hf; [|discriminate].
    exists c. split; [reflexivity|]. injection Hf as <-. reflexivity.
Qed.

Lemma hsv_to_grb_reorders_rgb_witness :
  raw_rgb 15 100 100 = Some {| red := 255; green := 63; blue := 0 |}
  /\ exists frame, Onboard.hsv_to_grb 15 100 100 = Some frame
       /\ length frame = 3%nat
       /\ nth 0 frame 0 = 63 /\ nth 1 frame 0 = 255 /\ nth 2 frame 0 = 0.
Proof.
  assert (H : raw_rgb 15 100 100 = Some {| red := 255; green := 63; blue := 0 |})
    by (vm_compute; reflexivity).
  split; [exact H|].
  exact (proj1 (proj2 (hsv_to_grb_reorders_rgb 15 100 100)) _ H).
Defined.

(** C8, as the code has it.  The hue parameter is a [uint16_t]: any
    integer argument is first reduced modulo 2^16 and only then modulo
    360, so [hsv_to_grb h s v] equals
    [hsv_to_grb ((h mod 2^16) mod 360) s v] for every integer [h]; for
    an argument that fits the parameter, [0 <= h < 65536], this is
    [hsv_to_grb (h mod 360) s v]. *)
Theorem hsv_to_grb_normalises_uint16_hue h s v :
  Onboard.hsv_to_grb h s v = Onboard.hsv_to_grb ((h mod 65536) mod 360) s v
  /\ (0 <= h < 65536 ->
      Onboard.hsv_to_grb h s v = Onboard.hsv_to_grb (h mod 360) s v).
Proof.
  split; [apply hsv_to_grb_hue|].
  intros Hh. rewrite hsv_to_grb_hue. rewrite (Z.mod_small h 65536) by exact Hh.
  reflexivity.
Qed.

Lemma hsv_to_grb_normalises_uint16_hue_witness :
  0 <= 400 < 65536
  /\ Onboard.hsv_to_grb 400 100 100 = Onboard.hsv_to_grb (400 mod 360) 100 100.
Proof.
  split; [lia|].
  apply (proj2 (hsv_to_grb_normalises_uint16_hue 400 100 100)). lia.
Defined.

(** C8 as stated fails outside the parameter's range: the argument -1
    arrives as 65535, whose remainder by 360 is 15 and not 359; the
    argument 65536 arrives as 0, while 65536 mod 360 is 16. *)
Lemma hsv_to_grb_negative_hue_differs :
  (Onboard.hsv_to_grb (-1) 100 100 = Some [63; 255; 0]
   /\ Onboard.hsv_to_grb ((-1) mod 360) 100 100 = Some [0; 255; 4]
   /\ Onboard.hsv_to_grb (-1) 100 100 <> Onboard.hsv_to_grb ((-1) mod 360) 100 100)
  /\ Onboard.hsv_to_grb 65536 100 100 <> Onboard.hsv_to_grb (65536 mod 360) 100 100.
Proof.
  assert (A : Onboard.hsv_to_grb (-1) 100 100 = Some [63; 255; 0])
    by (vm_compute; reflexivity).
  assert (B : Onboard.hsv_to_grb ((-1) mod 360) 100 100 = Some [0; 255; 4])
    by (vm_compute; reflexivity).
  split.
  - split; [exact A|]. split; [exact B|]. rewrite A, B. discriminate.
  - vm_compute. discriminate.
Qed.

(** C9. The converter of [esp32s3_onboard_LED.c] and the converter of
    [led_strip_example_main.c] produce the same three bytes (and are
    undefined together) on every input. *)
Theorem hsv_to_grb_implementations_agree h s v :
  Onboard.hsv_to_grb h s v = Example.hsv_to_grb h s v.
Proof.
  unfold Onboard.hsv_to_grb, Example.hsv_to_grb, Onboard.select_rgb.
  reflexivity.
Qed.

(** C10. For every hue in [0,360) the frame sent by the driver
    (saturation 100, value 100) is defined, holds a byte equal to 255
    and a byte equal to 0. *)
Theorem full_frame_has_255_and_0 h :
  0 <= h < 360 ->
  exists g r b,
    Onboard.hsv_to_grb h 100 100 = Some [g; r; b]
    /\ In 255 [g; r; b] /\ In 0 [g; r; b].
Proof.
  intros Hh.
  pose proof full_frame_all as Hall.
  rewrite forallb_forall in Hall.
  specialize (Hall _ (in_hues _ Hh)).
  unfold full_frame_ok in Hall.
  destruct (Onboard.hsv_to_grb h 100 100)
    as [[|g [|r [|b [|? ?]]]]|]; try discriminate.
  apply andb_true_iff in Hall. destruct Hall as [H255 H0].
  exists g, r, b. split; [reflexivity|].
  apply existsb_exists in H255. destruct H255 as (x & Hx & Ex).
  apply existsb_exists in H0. destruct H0 as (y & Hy & Ey).
  apply Z.eqb_eq in Ex. apply Z.eqb_eq in Ey. subst x y.
  split; assumption.
Qed.

Lemma full_frame_has_255_and_0_witness :
  0 <= 200 < 360
  /\ exists g r b,
       Onboard.hsv_to_grb 200 100 100 = Some [g; r; b]
       /\ In 255 [g; r; b] /\ In 0 [g; r; b].
Proof.
  split; [lia|]. apply (full_frame_has_255_and_0 200). lia.
Defined.

End ConverterFacts.

Module DriverFacts.
Import Rmt Driver Runs.

(** The hue transition on a [uint16_t] hue. *)
Lemma next_hue_mod h : 0 <= h -> next_hue h = (h + 2) mod 360.
Proof.
  intros Hh. unfold next_hue, HUE_STEP.
  rewrite Z.rem_mod_nonneg by lia.
  apply CIntFacts.to_uint16_small.
  pose proof (Z.mod_pos_bound (h + 2) 360). lia.
Qed.

Lemma next_hue_range h : 0 <= h -> 0 <= next_hue h < 360.
Proof.
  intros Hh. rewrite next_hue_mod by exact Hh. apply Z.mod_pos_bound. lia.
Qed.

Lemma iter_next_hue k h :
  0 <= h < 360 -> Nat.iter k next_hue h = (h + 2 * Z.of_nat k) mod 360.
Proof.
  intros Hh. induction k as [|k IH].
  - simpl. rewrite Z.add_0_r. symmetry. apply Z.mod_small. exact Hh.
  - rewrite Nat.iter_succ, IH.
    rewrite next_hue_mod by (apply Z.mod_pos_bound; lia).
    rewrite Zplus_mod_idemp_l. f_equal. lia.
Qed.

Lemma logs_at_mod h : 0 <= h -> logs_at h = (h mod 10 =? 0).
Proof. intros Hh. unfold logs_at. rewrite Z.rem_mod_nonneg by lia. reflexivity. Qed.

Section Facts.
Context {World : Type} {drv : driver World}.
Implicit Types m : machine World.

(** One step, once the frame is known. *)
Lemma update_led_color_run m g r b :
  Onboard.hsv_to_grb (hue m) 100 100 = Some [g; r; b] ->
  update_led_color m =
    (if fst (transmission m [g; r; b]) =? ESP_OK
     then Done tt (after_step m [g; r; b] (snd (transmission m [g; r; b])))
     else Aborted (fst (transmission m [g; r; b]))
            (at_abort m [g; r; b] (snd (transmission m [g; r; b])))).
Proof.
  intros Hf. unfold hue in Hf.
  unfold update_led_color, bind, get_controller, defined, set_controller,
    sdk, ESP_ERROR_CHECK, transmission, after_step, at_abort, hue.
  rewrite Hf. cbn [controller world console channel encoder grb_data current_hue].
  destruct (rmt_transmit _ _ _ _ _ _) as [e w']. cbn [fst snd].
  destruct (e =? ESP_OK); [|reflexivity].
  cbn [controller world console channel encoder grb_data current_hue].
  unfold ESP_LOGI, ret.
  destruct (logs_at _); reflexivity.
Qed.

(** A step either completes or aborts; it is never undefined. *)
Lemma update_led_color_cases m :
  exists g r b,
    Onboard.hsv_to_grb (hue m) 100 100 = Some [g; r; b]
    /\ update_led_color m =
       (if fst (transmission m [g; r; b]) =? ESP_OK
        then Done tt (after_step m [g; r; b] (snd (transmission m [g; r; b])))
        else Aborted (fst (transmission m [g; r; b]))
               (at_abort m [g; r; b] (snd (transmission m [g; r; b])))).
Proof.
  destruct (ConverterFacts.hsv_to_grb_full_defined (hue m)) as (g & r & b & Hf).
  exists g, r, b. split; [exact Hf | apply update_led_color_run, Hf].
Qed.

Lemma rainbow_loop_S n m :
  rainbow_loop (S n) m =
    match update_led_color m with
    | Done _ m1 => rainbow_loop n (delayed m1)
    | Aborted e m1 => Aborted e m1
    | Undefined => Undefined
    end.
Proof.
  cbn [rainbow_loop]. unfold bind at 1.
  destruct (update_led_color m) as [[] m1|e m1|]; try reflexivity.
Qed.

Lemma update_done_hue m m' :
  0 <= hue m -> update_led_color m = Done tt m' ->
  hue m' = (hue m + 2) mod 360
  /\ console m' =
     (if hue m mod 10 =? 0
      then console m ++ [HueRecord (hue m) (nth 0 (grb_data (controller m')) 0)
                           (nth 1 (grb_data (controller m')) 0)
                           (nth 2 (grb_data (controller m')) 0)]
      else console m)
  /\ Onboard.hsv_to_grb (hue m) 100 100 = Some (grb_data (controller m')).
Proof.
  intros Hh Hrun.
  destruct (update_led_color_cases m) as (g & r & b & Hf & E).
  rewrite E in Hrun.
  destruct (fst (transmission m [g; r; b]) =? ESP_OK); [|discriminate].
  injection Hrun as <-.
  unfold after_step, hue at 1.
  cbn [controller console grb_data current_hue].
  rewrite next_hue_mod, logs_at_mod by exact Hh.
  repeat split; try assumption.
Qed.

Lemma update_aborted m e m' :
  update_led_color m = Aborted e m' ->
  hue m' = hue m /\ console m' = console m /\ e <> ESP_OK.
Proof.
  intros Hrun.
  destruct (update_led_color_cases m) as (g & r & b & Hf & E).
  rewrite E in Hrun.
  destruct (fst (transmission m [g; r; b]) =? ESP_OK) eqn:Ee; [discriminate|].
  injection Hrun as <- <-.
  apply Z.eqb_neq in Ee.
  repeat split; assumption.
Qed.

Lemma rainbow_loop_hue n : forall m m',
  0 <= hue m < 360 -> rainbow_loop n m = Done tt m' ->
  hue m' = (hue m + 2 * Z.of_nat n) mod 360.
Proof.
  induction n as [|n IH]; intros m m' Hh Hrun.
  - cbn in Hrun. injection Hrun as <-.
    rewrite Z.add_0_r. symmetry. apply Z.mod_small. exact Hh.
  - rewrite rainbow_loop_S in Hrun.
    destruct (update_led_color m) as [[] m1|e m1|] eqn:Hup; try discriminate.
    destruct (update_done_hue m m1 (proj1 Hh) Hup) as (Hh1 & _).
    assert (Hd : hue (delayed m1) = (hue m + 2) mod 360) by exact Hh1.
    rewrite (IH (delayed m1) m'); [| rewrite Hd; apply Z.mod_pos_bound; lia | exact Hrun].
    rewrite Hd, Zplus_mod_idemp_l. f_equal. lia.
Qed.

(** Start-up leaves the hue at 0 and prints only the banner. *)
(** The controller that [initialize_led_controller] returns starts at
    hue 0 with a dark frame; nothing is printed meanwhile. *)
Lemma initialize_led_controller_done m c m' :
  initialize_led_controller m = Done c m' ->
  current_hue c = 0 /\ grb_data c = [0; 0; 0] /\ console m' = console m.
Proof.
  unfold initialize_led_controller, bind, sdk, ESP_ERROR_CHECK, ret.
  destruct (rmt_new_tx_channel _ _) as [[e1 h1] w1].
  cbn [fst snd world controller console].
  destruct (e1 =? ESP_OK); [|discriminate].
  destruct (rmt_new_led_strip_encoder _ _) as [[e2 h2] w2].
  cbn [fst snd world controller console].
  destruct (e2 =? ESP_OK); [|discriminate].
  destruct (rmt_enable _ _) as [e3 w3].
  cbn [fst snd world controller console].
  destruct (e3 =? ESP_OK); [|discriminate].
  intros H. injection H as <- <-. repeat split.
Qed.

(** Start-up leaves the hue at 0 and prints only the banner. *)
Lemma app_main_start w junk m :
  app_main 0 (boot w junk) = Done tt m ->
  hue m = 0 /\ console m = [Starting].
Proof.
  unfold app_main, bind, ESP_LOGI, set_controller, boot, hue.
  cbn [world controller console rainbow_loop].
  destruct (initialize_led_controller _) as [c m1|e m1|] eqn:Hi; try discriminate.
  destruct (initialize_led_controller_done _ _ _ Hi) as (Hh & _ & Hc).
  unfold ret. intros H. injection H as <-.
  cbn [world controller console] in *. split; [exact Hh | exact Hc].
Qed.

Lemma app_main_split n m :
  app_main n m =
    match app_main 0 m with
    | Done _ m0 => rainbow_loop n m0
    | Aborted e m1 => Aborted e m1
    | Undefined => Undefined
    end.
Proof.
  unfold app_main, bind, ESP_LOGI, set_controller.
  destruct (initialize_led_controller _) as [c m2|e m2|]; reflexivity.
Qed.

(** With a peripheral that accepts every frame the loop runs on. *)
Lemma rainbow_loop_completes n :
  (forall c e f k t w, fst (rmt_transmit c e f k t w) = ESP_OK) ->
  forall m, exists m', rainbow_loop n m = Done tt m'.
Proof.
  intros Hok. induction n as [|n IH]; intros m.
  - exists m. reflexivity.
  - rewrite rainbow_loop_S.
    destruct (update_led_color_cases m) as (g & r & b & _ & E).
    rewrite E. unfold transmission at 1. rewrite Hok. cbn [Z.eqb ESP_OK].
    apply IH.
Qed.

(** The records printed by [n] rounds of the loop, by hue. *)
Lemma rainbow_loop_console n : forall m m',
  0 <= hue m < 360 -> rainbow_loop n m = Done tt m' ->
  exists new,
    console m' = console m ++ new
    /\ map record_hue new = map Some (filter logs_at (hue_trace n (hue m))).
Proof.
  induction n as [|n IH]; intros m m' Hh Hrun.
  - cbn in Hrun. injection Hrun as <-. exists []. split; [|reflexivity].
    symmetry. apply app_nil_r.
  - rewrite rainbow_loop_S in Hrun.
    destruct (update_led_color m) as [[] m1|e m1|] eqn:Hup; try discriminate.
    destruct (update_done_hue m m1 (proj1 Hh) Hup) as (Hh1 & Hc1 & _).
    assert (Hd : hue (delayed m1) = next_hue (hue m))
      by (rewrite next_hue_mod by lia; exact Hh1).
    destruct (IH (delayed m1) m') as (new & Hnew & Hmap);
      [rewrite Hd; apply next_hue_range; lia | exact Hrun |].
    change (console (delayed m1)) with (console m1) in Hnew.
    rewrite Hd in Hmap. cbn [hue_trace filter].
    rewrite logs_at_mod by lia.
    rewrite Hc1 in Hnew.
    destruct (hue m mod 10 =? 0).
    + eexists (_ :: new). split.
      * rewrite Hnew, <- app_assoc. reflexivity.
      * cbn [map record_hue]. rewrite Hmap. reflexivity.
    + exists new. split; assumption.
Qed.

(** C3. From the initial animation state, hue 0, [n] completed steps
    leave the hue at [(2 * n) mod 360]: both for the loop entered with
    hue 0 and for the whole program from power-up; and when the
    peripheral accepts every frame the [n] steps do complete. *)
Theorem hue_after_n_steps (n : nat) :
  (forall m m', hue m = 0 -> rainbow_loop n m = Done tt m' ->
                hue m' = (2 * Z.of_nat n) mod 360)
  /\ (forall w junk m', app_main n (boot w junk) = Done tt m' ->
                       hue m' = (2 * Z.of_nat n) mod 360)
  /\ ((forall c e f k t w, fst (rmt_transmit c e f k t w) = ESP_OK) ->
      forall m, hue m = 0 ->
        exists m', rainbow_loop n m = Done tt m'
                   /\ hue m' = (2 * Z.of_nat n) mod 360).
Proof.
  assert (A : forall m m', hue m = 0 -> rainbow_loop n m = Done tt m' ->
                           hue m' = (2 * Z.of_nat n) mod 360).
  { intros m m' H0 Hrun.
    rewrite (rainbow_loop_hue n m m') by (rewrite ?H0; auto; lia).
    rewrite H0. reflexivity. }
  split; [exact A|]. split.
  - intros w junk m' Hrun. rewrite app_main_split in Hrun.
    destruct (app_main 0 (boot w junk)) as [[] m0|e m0|] eqn:E0; try discriminate.
    apply (A m0 m'); [apply (app_main_start w junk m0 E0) | exact Hrun].
  - intros Hok m H0.
    destruct (rainbow_loop_completes n Hok m) as (m' & Hrun).
    exists m'. split; [exact Hrun | exact (A m m' H0 Hrun)].
Qed.

(** C5. When the transmission of the frame reports an error, the step
    aborts with that very error code and nothing else has happened: the
    machine at the abort is the one before the step with the frame
    stored in [grb_data] and the peripheral as that single call to
    [rmt_transmit] left it, so the hue and the console are as they were
    and no second transmission was tried; the loop does not go on to
    another round. *)
Theorem transmit_error_is_fatal m frame e w' :
  Onboard.hsv_to_grb (hue m) 100 100 = Some frame ->
  transmission m frame = (e, w') ->
  e <> ESP_OK ->
  exists m',
    update_led_color m = Aborted e m'
    /\ m' = at_abort m frame w'
    /\ world m' = w'
    /\ hue m' = hue m
    /\ console m' = console m
    /\ channel (controller m') = channel (controller m)
    /\ encoder (controller m') = encoder (controller m)
    /\ grb_data (controller m') = frame
    /\ forall n, rainbow_loop (S n) m = Aborted e m'.
Proof.
  intros Hf Htx He.
  destruct (update_led_color_cases m) as (g & r & b & Hf' & E).
  rewrite Hf in Hf'. injection Hf' as ->.
  rewrite Htx in E. cbn [fst snd] in E.
  apply Z.eqb_neq in He. rewrite He in E.
  exists (at_abort m [g; r; b] w').
  split; [exact E|]. repeat (split; [reflexivity|]).
  intros n. rewrite rainbow_loop_S, E. reflexivity.
Qed.

(** C6. The controller is built with hue 0, whatever the memory held
    before; a completed step maps a hue in [0,360) to a hue in [0,360),
    an aborted step leaves the hue alone; hence every reachable state
    has its hue in [0,360). *)
Theorem hue_invariant :
  (forall m c m', initialize_led_controller m = Done c m' -> current_hue c = 0)
  /\ (forall w junk m, app_main 0 (boot w junk) = Done tt m -> hue m = 0)
  /\ (forall m m', 0 <= hue m < 360 -> update_led_color m = Done tt m' ->
                   0 <= hue m' < 360)
  /\ (forall m e m', 0 <= hue m < 360 -> update_led_color m = Aborted e m' ->
                     0 <= hue m' < 360)
  /\ (forall m, reachable m -> 0 <= hue m < 360).
Proof.
  assert (Hstep : forall m m', 0 <= hue m < 360 ->
            update_led_color m = Done tt m' -> 0 <= hue m' < 360).
  { intros m m' Hh Hup.
    destruct (update_done_hue m m' (proj1 Hh) Hup) as (-> & _).
    apply Z.mod_pos_bound. lia. }
  assert (Habort : forall m e m', 0 <= hue m < 360 ->
            update_led_color m = Aborted e m' -> 0 <= hue m' < 360).
  { intros m e m' Hh Hup.
    destruct (update_aborted m e m' Hup) as (-> & _). exact Hh. }
  split; [intros m c m' H; apply (initialize_led_controller_done m c m' H)|].
  split; [intros w junk m H; apply (app_main_start w junk m H)|].
  split; [exact Hstep|]. split; [exact Habort|].
  intros m Hr. induction Hr as [w junk m H|m m' _ IH Hup|m e m' _ IH Hup|m _ IH].
  - rewrite (proj1 (app_main_start w junk m H)). lia.
  - exact (Hstep m m' IH Hup).
  - exact (Habort m e m' IH Hup).
  - exact IH.
Qed.

(** C7. From every hue in [0,360), 180 applications of the hue
    transition come back to the starting hue and no smaller positive
    number of applications does; accordingly 180 completed rounds of
    the loop restore the hue. *)
Theorem hue_period_180 h :
  0 <= h < 360 ->
  Nat.iter 180 next_hue h = h
  /\ (forall k, (0 < k < 180)%nat -> Nat.iter k next_hue h <> h)
  /\ (forall m m', hue m = h -> rainbow_loop 180 m = Done tt m' -> hue m' = h).
Proof.
  intros Hh. split; [|split].
  - rewrite iter_next_hue by exact Hh.
    change (2 * Z.of_nat 180) with (1 * 360).
    rewrite Z.mod_add by lia. apply Z.mod_small. exact Hh.
  - intros k Hk. rewrite iter_next_hue by exact Hh.
    intros E. revert E. Z.div_mod_to_equations. lia.
  - intros m m' Hm Hrun.
    rewrite (rainbow_loop_hue 180 m m') by (rewrite ?Hm; auto).
    rewrite Hm. change (2 * Z.of_nat 180) with (1 * 360).
    rewrite Z.mod_add by lia. apply Z.mod_small. exact Hh.
Qed.

Lemma hue_trace_nonneg n : forall h,
  0 <= h -> Forall (fun x => 0 <= x) (hue_trace n h).
Proof.
  induction n as [|n IH]; intros h Hh; [constructor|].
  cbn [hue_trace]. constructor; [exact Hh|].
  apply IH. apply next_hue_range. exact Hh.
Qed.

Lemma filter_logs_at_mod n h :
  0 <= h ->
  filter logs_at (hue_trace n h) = filter (fun x => x mod 10 =? 0) (hue_trace n h).
Proof.
  intros Hh. apply filter_ext_in. intros x Hx.
  apply logs_at_mod.
  pose proof (hue_trace_nonneg n h Hh) as Hall.
  rewrite Forall_forall in Hall. exact (Hall x Hx).
Qed.

Lemma cycle_prints_36 : forallb (Cycle.prints_from 180 36) hues = true.
Proof. vm_compute. reflexivity. Qed.

Lemma ten_steps_print_2 : forallb (Cycle.prints_from 10 2) hues = true.
Proof. vm_compute. reflexivity. Qed.

Lemma prints_from_count n k h :
  forallb (Cycle.prints_from n k) hues = true ->
  0 <= h < 360 -> h mod 2 = 0 ->
  length (filter logs_at (hue_trace n h)) = k.
Proof.
  intros Hall Hh Heven. rewrite forallb_forall in Hall.
  specialize (Hall h (ConverterFacts.in_hues h Hh)).
  unfold Cycle.prints_from in Hall.
  apply Z.eqb_eq in Heven. rewrite Heven in Hall. cbn [negb orb] in Hall.
  apply Nat.eqb_eq in Hall. exact Hall.
Qed.

(** The records of [n] completed rounds from an even hue, counted. *)
Lemma rainbow_loop_records n k m m' :
  forallb (Cycle.prints_from n k) hues = true ->
  0 <= hue m < 360 -> hue m mod 2 = 0 ->
  rainbow_loop n m = Done tt m' ->
  exists new,
    console m' = console m ++ new
    /\ map record_hue new
       = map Some (filter (fun h => h mod 10 =? 0) (hue_trace n (hue m)))
    /\ length new = k.
Proof.
  intros Hall Hh Heven Hrun.
  destruct (rainbow_loop_console n m m' Hh Hrun) as (new & Hnew & Hmap).
  exists new. split; [exact Hnew|]. split.
  - rewrite Hmap, filter_logs_at_mod by lia. reflexivity.
  - rewrite <- (length_map record_hue new), Hmap, length_map.
    exact (prints_from_count n k (hue m) Hall Hh Heven).
Qed.

(** C4. What the code does with the records.  A completed step prints
    a record exactly when the hue it starts from is a multiple of 10.
    The hue advances by 2 per step, so from every even hue in [0,360),
    the hues the driver visits, the 180 steps of one cycle print 36
    records and any 10 steps in a row print 2: one record every fifth
    step, where the comments of the sources announce one every ten
    steps, which would be 18 in a cycle. *)
Theorem records_over_one_cycle :
  (forall m m', 0 <= hue m -> update_led_color m = Done tt m' ->
     (hue m mod 10 = 0 ->
        exists g r b, console m' = console m ++ [HueRecord (hue m) g r b])
     /\ (hue m mod 10 <> 0 -> console m' = console m))
  /\ (forall m m', 0 <= hue m < 360 -> hue m mod 2 = 0 ->
        rainbow_loop 180 m = Done tt m' ->
        exists new,
          console m' = console m ++ new
          /\ map record_hue new
             = map Some (filter (fun h => h mod 10 =? 0) (hue_trace 180 (hue m)))
          /\ length new = 36%nat)
  /\ (forall m m', 0 <= hue m < 360 -> hue m mod 2 = 0 ->
        rainbow_loop 10 m = Done tt m' ->
        exists new,
          console m' = console m ++ new
          /\ map record_hue new
             = map Some (filter (fun h => h mod 10 =? 0) (hue_trace 10 (hue m)))
          /\ length new = 2%nat).
Proof.
  split; [|split].
  - intros m m' Hh Hup.
    destruct (update_done_hue m m' Hh Hup) as (_ & Hc & _).
    split; intros Hmod.
    + apply Z.eqb_eq in Hmod. rewrite Hmod in Hc. eauto.
    + apply Z.eqb_neq in Hmod. rewrite Hmod in Hc. exact Hc.
  - intros m m'. apply rainbow_loop_records. exact cycle_prints_36.
  - intros m m'. apply rainbow_loop_records. exact ten_steps_print_2.
Qed.

End Facts.

(** *** Runs on the test benches *)

Lemma hue_after_n_steps_witness :
  exists m',
    @app_main nat Bench.steady 200 (boot 0%nat Bench.junk) = Done tt m'
    /\ hue m' = (2 * Z.of_nat 200) mod 360.
Proof.
  eexists. split; [vm_compute; reflexivity|].
  apply (proj1 (proj2 (@hue_after_n_steps nat Bench.steady 200)) 0%nat Bench.junk).
  vm_compute. reflexivity.
Defined.

(** The whole program from power-up: one cycle of 180 steps prints 36
    records, not 18. *)
Lemma cycle_prints_36_records_not_18 :
  exists m',
    @app_main nat Bench.steady 180 (boot 0%nat Bench.junk) = Done tt m'
    /\ length (filter is_record (console m')) = 36%nat
    /\ length (filter is_record (console m')) <> 18%nat.
Proof.
  eexists. split; [vm_compute; reflexivity|].
  split; [vm_compute; reflexivity | vm_compute; discriminate].
Qed.

Lemma records_over_one_cycle_witness :
  exists m' new,
    @rainbow_loop nat Bench.steady 180 (boot 0%nat Bench.fresh) = Done tt m'
    /\ console m' = [] ++ new
    /\ map record_hue new
       = map Some (filter (fun h => h mod 10 =? 0) (hue_trace 180 0))
    /\ length new = 36%nat.
Proof.
  assert (Hh : 0 <= hue (@boot nat 0%nat Bench.fresh) < 360)
    by (change (0 <= 0 < 360); lia).
  eexists.
  assert (E : @rainbow_loop nat Bench.steady 180 (boot 0%nat Bench.fresh) = Done tt _)
    by (vm_compute; reflexivity).
  destruct (proj1 (proj2 (@records_over_one_cycle nat Bench.steady))
              (boot 0%nat Bench.fresh) _ Hh eq_refl E)
    as (new & Hc & Hm & Hl).
  exists new. split; [exact E|]. split; [exact Hc|]. split; [exact Hm | exact Hl].
Defined.

Lemma transmit_error_is_fatal_witness :
  exists m',
    @update_led_color nat (Bench.faulty 0) (boot 0%nat Bench.fresh)
      = Aborted Bench.ESP_FAIL m'
    /\ world m' = 0%nat
    /\ hue m' = 0
    /\ console m' = []
    /\ grb_data (controller m') = [0; 255; 0]
    /\ @rainbow_loop nat (Bench.faulty 0) 5 (boot 0%nat Bench.fresh)
       = Aborted Bench.ESP_FAIL m'.
Proof.
  destruct (@transmit_error_is_fatal nat (Bench.faulty 0) (boot 0%nat Bench.fresh)
              [0; 255; 0] Bench.ESP_FAIL 0%nat)
    as (m' & Hup & _ & Hw & Hh & Hc & _ & _ & Hf & Hloop).
  - vm_compute. reflexivity.
  - reflexivity.
  - discriminate.
  - exists m'. split; [exact Hup|]. split; [exact Hw|]. split; [exact Hh|].
    split; [exact Hc|]. split; [exact Hf|]. exact (Hloop 4%nat).
Defined.

Lemma hue_invariant_witness :
  exists m0 m1,
    @app_main nat Bench.steady 0 (boot 0%nat Bench.junk) = Done tt m0
    /\ @update_led_color nat Bench.steady m0 = Done tt m1
    /\ hue m0 = 0
    /\ 0 <= hue m1 < 360.
Proof.
  eexists. eexists.
  split; [vm_compute; reflexivity|].
  split; [vm_compute; reflexivity|].
  split.
  - apply (proj1 (proj2 (@hue_invariant nat Bench.steady)) 0%nat Bench.junk).
    vm_compute. reflexivity.
  - apply (proj2 (proj2 (proj2 (proj2 (@hue_invariant nat Bench.steady))))).
    eapply reach_step.
    + apply reach_start with (w := 0%nat) (junk := Bench.junk).
      vm_compute. reflexivity.
    + vm_compute. reflexivity.
Defined.

Lemma hue_period_180_witness :
  0 <= 358 < 360
  /\ Nat.iter 180 next_hue 358 = 358
  /\ Nat.iter 90 next_hue 358 <> 358.
Proof.
  assert (H : 0 <= 358 < 360) by lia.
  split; [exact H|].
  destruct (@hue_period_180 nat Bench.steady 358 H) as (A & B & _).
  split; [exact A | apply B; lia].
Defined.

End DriverFacts.

(** * Further facts about the converter *)

Module WheelFacts.
Import CFloat Runs Wheel.

Lemma in_Zrange a n v : a <= v < a + Z.of_nat n -> In v (Zrange a n).
Proof.
  intros H. unfold Zrange. apply in_map_iff.
  exists (Z.to_nat (v - a)). split; [lia | apply in_seq; lia].
Qed.

Lemma hue_factors_eq : hue_factors = map (fun H => (H, hue_factor H)) hues.
Proof. vm_compute. reflexivity. Qed.

Lemma in_hue_factors H : 0 <= H < 360 -> In (H, hue_factor H) hue_factors.
Proof.
  intros HH. rewrite hue_factors_eq.
  apply (in_map (fun H => (H, hue_factor H))). apply ConverterFacts.in_hues, HH.
Qed.

(** [hsv_to_grb] through the quantities of [Wheel]. *)
Lemma hsv_to_grb_stores h s v :
  Onboard.hsv_to_grb h s v =
    stores ((h mod 65536) mod 360)
      (fmul (percent (v mod 256)) (percent (s mod 256)))
      (fsub (percent (v mod 256)) (fmul (percent (v mod 256)) (percent (s mod 256))))
      (hue_factor ((h mod 65536) mod 360)).
Proof.
  unfold Onboard.hsv_to_grb, stores, store, percent, hue_factor. cbv zeta.
  rewrite !CIntFacts.hue_normalised. unfold CInt.to_uint8. reflexivity.
Qed.

Lemma frame_within_spec lo hi f :
  frame_within lo hi f = true ->
  In lo f /\ In hi f /\ forall x, In x f -> lo <= x <= hi.
Proof.
  unfold frame_within. intros H.
  apply andb_true_iff in H. destruct H as [H Hall].
  apply andb_true_iff in H. destruct H as [Hlo Hhi].
  apply existsb_exists in Hlo. destruct Hlo as (a & Ha & Ea).
  apply existsb_exists in Hhi. destruct Hhi as (b & Hb & Eb).
  apply Z.eqb_eq in Ea. apply Z.eqb_eq in Eb. subst a b.
  split; [exact Ha|]. split; [exact Hb|].
  intros x Hx. rewrite forallb_forall in Hall. specialize (Hall x Hx).
  apply andb_true_iff in Hall. destruct Hall as [A B].
  apply Z.leb_le in A. apply Z.leb_le in B. lia.
Qed.

Lemma full_saturation_all : forallb full_saturation_ok (Zrange 0 101) = true.
Proof. vm_compute. reflexivity. Qed.

Lemma full_value_all : forallb full_value_ok (Zrange 0 101) = true.
Proof. vm_compute. reflexivity. Qed.

(** X1. At saturation 100 the value scales the colour and nothing else:
    for every hue argument and every value [v] in [0,100] the frame is
    defined, its greatest byte is [255 * v / 100] and its least byte is
    0. *)
Theorem full_saturation_frame h v :
  0 <= v <= 100 ->
  exists g r b,
    Onboard.hsv_to_grb h 100 v = Some [g; r; b]
    /\ In (255 * v / 100) [g; r; b]
    /\ In 0 [g; r; b]
    /\ forall x, In x [g; r; b] -> 0 <= x <= 255 * v / 100.
Proof.
  intros Hv. rewrite hsv_to_grb_stores.
  rewrite (Z.mod_small v 256) by lia. change (100 mod 256) with 100.
  pose proof full_saturation_all as Hall. rewrite forallb_forall in Hall.
  specialize (Hall v (in_Zrange 0 101 v ltac:(lia))).
  unfold full_saturation_ok in Hall. rewrite forallb_forall in Hall.
  specialize (Hall _ (in_hue_factors _ (CIntFacts.hue_normalised_range h))).
  cbn [fst snd] in Hall.
  destruct (stores _ _ _ _) as [[|g [|r [|b [|? ?]]]]|]; try discriminate.
  apply frame_within_spec in Hall. destruct Hall as (H0 & Hl & Hb).
  exists g, r, b. split; [reflexivity|].
  split; [exact Hl|]. split; [exact H0 | exact Hb].
Qed.

Lemma full_saturation_frame_witness :
  0 <= 40 <= 100
  /\ exists g r b,
       Onboard.hsv_to_grb 200 100 40 = Some [g; r; b]
       /\ In (255 * 40 / 100) [g; r; b]
       /\ In 0 [g; r; b]
       /\ forall x, In x [g; r; b] -> 0 <= x <= 255 * 40 / 100.
Proof.
  split; [lia|]. apply (full_saturation_frame 200 40). lia.
Defined.

(** X2. At value 100 the saturation only lifts the floor: for every hue
    argument and every saturation [s] in [0,100] the frame is defined,
    its greatest byte is 255 and its least byte is
    [255 * (100 - s) / 100], one less at [s = 60] and at [s = 80]. *)
Theorem full_value_frame h s :
  0 <= s <= 100 ->
  exists g r b,
    Onboard.hsv_to_grb h s 100 = Some [g; r; b]
    /\ In 255 [g; r; b]
    /\ In (white_level s) [g; r; b]
    /\ (forall x, In x [g; r; b] -> white_level s <= x <= 255)
    /\ (s <> 60 -> s <> 80 -> white_level s = 255 * (100 - s) / 100)
    /\ (s = 60 \/ s = 80 -> white_level s = 255 * (100 - s) / 100 - 1).
Proof.
  intros Hs. rewrite hsv_to_grb_stores.
  rewrite (Z.mod_small s 256) by lia. change (100 mod 256) with 100.
  pose proof full_value_all as Hall. rewrite forallb_forall in Hall.
  specialize (Hall s (in_Zrange 0 101 s ltac:(lia))).
  unfold full_value_ok in Hall. rewrite forallb_forall in Hall.
  specialize (Hall _ (in_hue_factors _ (CIntFacts.hue_normalised_range h))).
  cbn [fst snd] in Hall.
  destruct (stores _ _ _ _) as [[|g [|r [|b [|? ?]]]]|]; try discriminate.
  apply frame_within_spec in Hall. destruct Hall as (Hw & H255 & Hb).
  exists g, r, b. split; [reflexivity|].
  split; [exact H255|]. split; [exact Hw|]. split; [exact Hb|].
  unfold white_level. split.
  - intros H60 H80.
    apply Z.eqb_neq in H60. apply Z.eqb_neq in H80. rewrite H60, H80.
    cbn [orb]. lia.
  - intros [-> | ->]; reflexivity.
Qed.

Lemma full_value_frame_witness :
  0 <= 60 <= 100
  /\ exists g r b,
       Onboard.hsv_to_grb 0 60 100 = Some [g; r; b]
       /\ In 255 [g; r; b]
       /\ In 101 [g; r; b]
       /\ (forall x, In x [g; r; b] -> 101 <= x <= 255).
Proof.
  split; [lia|].
  destruct (full_value_frame 0 60 ltac:(lia)) as (g & r & b & E & A & B & C & _).
  exists g, r, b. repeat split; try assumption; apply C; assumption.
Defined.

(** With chroma +0 the three stores are one and the same. *)
Lemma stores_zero_chroma H m F :
  factor_ok F = true ->
  stores H (S754_zero false) m F =
    match store (S754_zero false) m with
    | Some k => Some [k; k; k]
    | None => None
    end.
Proof.
  intros HF. unfold stores.
  assert (EX : float_of_double (dmul (double_of_float (S754_zero false)) F)
               = S754_zero false).
  { destruct F as [[|]|[|]| |[|] mF eF]; try discriminate HF; reflexivity. }
  rewrite EX. unfold Onboard.select_rgb.
  change (float_of_int 0) with (S754_zero false).
  destruct (H <? 60), (H <? 120), (H <? 180), (H <? 240), (H <? 300);
    destruct (store (S754_zero false) m); reflexivity.
Qed.

(** A store without a defined value leaves the whole frame undefined:
    every sector stores the chroma channel and a zero channel. *)
Lemma stores_undefined H C m F :
  store C m = None \/ store (S754_zero false) m = None ->
  stores H C m F = None.
Proof.
  intros HN. unfold stores, Onboard.select_rgb.
  change (float_of_int 0) with (S754_zero false).
  set (X := float_of_double (dmul (double_of_float C) F)).
  destruct (H <? 60), (H <? 120), (H <? 180), (H <? 240), (H <? 300);
    destruct HN as [HN | HN]; rewrite ?HN;
    repeat match goal with
           | |- context [match store ?c m with _ => _ end] =>
               destruct (store c m) eqn:?
           end;
    congruence.
Qed.

Lemma factor_all : forallb (fun hf => factor_ok (snd hf)) hue_factors = true.
Proof. vm_compute. reflexivity. Qed.

Lemma hue_factor_ok h : factor_ok (hue_factor ((h mod 65536) mod 360)) = true.
Proof.
  pose proof factor_all as Hall. rewrite forallb_forall in Hall.
  exact (Hall _ (in_hue_factors _ (CIntFacts.hue_normalised_range h))).
Qed.

Lemma grey_all : forallb grey_ok (Zrange 0 101) = true.
Proof. vm_compute. reflexivity. Qed.

Lemma black_all : forallb black_ok (Zrange 0 256) = true.
Proof. vm_compute. reflexivity. Qed.

Lemma overbright_all : forallb overbright_ok (Zrange 101 155) = true.
Proof. vm_compute. reflexivity. Qed.

Lemma oversaturated_all : forallb oversaturated_ok (Zrange 101 155) = true.
Proof. vm_compute. reflexivity. Qed.

(** X3. Saturation 0 gives grey whatever the hue: for every hue
    argument and every value [v] in [0,100] the three bytes are all
    [255 * v / 100]. *)
Theorem zero_saturation_is_grey h v :
  0 <= v <= 100 ->
  Onboard.hsv_to_grb h 0 v
  = Some [255 * v / 100; 255 * v / 100; 255 * v / 100].
Proof.
  intros Hv. rewrite hsv_to_grb_stores.
  rewrite (Z.mod_small v 256) by lia. change (0 mod 256) with 0.
  pose proof grey_all as Hall. rewrite forallb_forall in Hall.
  specialize (Hall v (in_Zrange 0 101 v ltac:(lia))).
  unfold grey_ok in Hall.
  destruct (fmul (percent v) (percent 0)) as [[|]| | |]; try discriminate Hall.
  rewrite stores_zero_chroma by apply hue_factor_ok.
  destruct (store _ _) as [k|]; [|discriminate Hall].
  apply Z.eqb_eq in Hall. unfold level in Hall. subst k. reflexivity.
Qed.

Lemma zero_saturation_is_grey_witness :
  0 <= 50 <= 100 /\ Onboard.hsv_to_grb 123 0 50 = Some [127; 127; 127].
Proof.
  split; [lia|]. apply (zero_saturation_is_grey 123 50). lia.
Defined.

(** X4. Value 0 gives black: for every hue argument and every
    saturation argument the frame is [0, 0, 0]. *)
Theorem zero_value_is_black h s :
  Onboard.hsv_to_grb h s 0 = Some [0; 0; 0].
Proof.
  rewrite hsv_to_grb_stores. change (0 mod 256) with 0.
  pose proof black_all as Hall. rewrite forallb_forall in Hall.
  specialize (Hall (s mod 256)
                (in_Zrange 0 256 (s mod 256)
                   ltac:(pose proof (Z.mod_pos_bound s 256 ltac:(lia)); lia))).
  unfold black_ok in Hall.
  destruct (fmul (percent 0) (percent (s mod 256))) as [[|]| | |];
    try discriminate Hall.
  destruct (fsub (percent 0) (S754_zero false)) as [[|]| | |];
    try discriminate Hall.
  rewrite stores_zero_chroma by apply hue_factor_ok.
  reflexivity.
Qed.

(** X5. A value above 100 is not clamped: for every value byte in
    (100, 255], every hue and every saturation argument, the store of
    the chroma channel exceeds a byte and the conversion has no defined
    result. *)
Theorem value_above_100_undefined h s v :
  100 < v <= 255 -> Onboard.hsv_to_grb h s v = None.
Proof.
  intros Hv. rewrite hsv_to_grb_stores.
  rewrite (Z.mod_small v 256) by lia.
  pose proof overbright_all as Hall. rewrite forallb_forall in Hall.
  specialize (Hall v (in_Zrange 101 155 v ltac:(lia))).
  unfold overbright_ok in Hall. rewrite forallb_forall in Hall.
  assert (Hin : In (percent (s mod 256)) (map percent (Zrange 0 256))).
  { apply in_map, in_Zrange. pose proof (Z.mod_pos_bound s 256 ltac:(lia)). lia. }
  specialize (Hall _ Hin). cbv zeta in Hall.
  apply stores_undefined. left.
  destruct (store _ _); [discriminate Hall | reflexivity].
Qed.

Lemma value_above_100_undefined_witness :
  100 < 101 <= 255 /\ Onboard.hsv_to_grb 0 100 101 = None.
Proof.
  split; [lia|]. apply (value_above_100_undefined 0 100 101). lia.
Defined.

(** X6. A saturation above 100 is not clamped either: for a saturation
    byte [s] in (100, 255] and a value [v] in [0,100] with
    [v * (s - 100) >= 40], in particular at value 100, the store of the
    zero channel is below 0 and the conversion has no defined result,
    on every hue. *)
Theorem saturation_above_100_undefined h s v :
  100 < s <= 255 -> 0 <= v <= 100 -> 40 <= v * (s - 100) ->
  Onboard.hsv_to_grb h s v = None.
Proof.
  intros Hs Hv Hprod. rewrite hsv_to_grb_stores.
  rewrite (Z.mod_small v 256), (Z.mod_small s 256) by lia.
  pose proof oversaturated_all as Hall. rewrite forallb_forall in Hall.
  specialize (Hall s (in_Zrange 101 155 s ltac:(lia))).
  unfold oversaturated_ok in Hall. rewrite forallb_forall in Hall.
  specialize (Hall v (in_Zrange 0 101 v ltac:(lia))). cbv zeta in Hall.
  apply Z.leb_le in Hprod. rewrite Hprod in Hall.
  apply stores_undefined. right.
  destruct (store _ _); [discriminate Hall | reflexivity].
Qed.

Lemma saturation_above_100_undefined_witness :
  100 < 101 <= 255 /\ 0 <= 100 <= 100 /\ 40 <= 100 * (101 - 100)
  /\ Onboard.hsv_to_grb 0 101 100 = None.
Proof.
  split; [lia|]. split; [lia|]. split; [lia|].
  apply (saturation_above_100_undefined 0 101 100); lia.
Defined.

Lemma changed_bytes_refl f : changed_bytes f f = O.
Proof.
  induction f as [|x t IH]; [reflexivity|].
  cbn [changed_bytes]. rewrite Z.eqb_refl, IH. reflexivity.
Qed.

Lemma frame_eqb_refl f : frame_eqb f f = true.
Proof.
  unfold frame_eqb. rewrite Nat.eqb_refl, changed_bytes_refl. reflexivity.
Qed.

(** A list whose images are pairwise distinct is mapped injectively. *)
Lemma distinctb_map_injective {A B} (eqb : B -> B -> bool) (f : A -> B) l :
  (forall b, eqb b b = true) ->
  distinctb eqb (map f l) = true ->
  forall x y, In x l -> In y l -> f x = f y -> x = y.
Proof.
  intros Hrefl. induction l as [|a t IH]; intros Hd x y Hx Hy E.
  - destruct Hx.
  - cbn [map distinctb] in Hd. apply andb_true_iff in Hd.
    destruct Hd as [Hhead Htail]. apply negb_true_iff in Hhead.
    assert (Hclash : forall z, In z t -> f a = f z -> False).
    { intros z Hz Ez.
      assert (Hex : existsb (eqb (f a)) (map f t) = true).
      { apply existsb_exists. exists (f z). split; [apply in_map, Hz|].
        rewrite <- Ez. apply Hrefl. }
      rewrite Hex in Hhead. discriminate Hhead. }
    destruct Hx as [<-|Hx], Hy as [<-|Hy].
    + reflexivity.
    + exfalso. exact (Hclash y Hy E).
    + exfalso. exact (Hclash x Hx (eq_sym E)).
    + exact (IH Htail x y Hx Hy E).
Qed.

Lemma frames_distinct : distinctb frame_eqb (map frame_at hues) = true.
Proof. vm_compute. reflexivity. Qed.

Lemma smooth_steps :
  forallb smooth_step_ok (map (fun k => 2 * k) (Zrange 0 180)) = true.
Proof. vm_compute. reflexivity. Qed.

(** X7. At full saturation and value the colour wheel has no repeats:
    two hues in [0,360) with the same frame are the same hue. *)
Theorem full_frames_distinct h1 h2 :
  0 <= h1 < 360 -> 0 <= h2 < 360 ->
  Onboard.hsv_to_grb h1 100 100 = Onboard.hsv_to_grb h2 100 100 ->
  h1 = h2.
Proof.
  intros H1 H2 E.
  apply (distinctb_map_injective frame_eqb frame_at hues frame_eqb_refl
           frames_distinct);
    try (apply ConverterFacts.in_hues; assumption).
  unfold frame_at. rewrite E. reflexivity.
Qed.

Lemma full_frames_distinct_witness :
  0 <= 80 < 360
  /\ Onboard.hsv_to_grb 80 100 100 = Onboard.hsv_to_grb (2 * 40) 100 100
  /\ 80 = 2 * 40.
Proof.
  split; [lia|]. split; [reflexivity|].
  apply (full_frames_distinct 80 (2 * 40)); [lia | lia | reflexivity].
Defined.

(** X8. The animation is smooth: from every even hue in [0,360), the
    hues the driver visits, the next frame differs from the current one
    in exactly one byte, and by 8 or 9. *)
Theorem step_changes_one_byte h :
  0 <= h < 360 -> h mod 2 = 0 ->
  exists f f',
    Onboard.hsv_to_grb h 100 100 = Some f
    /\ Onboard.hsv_to_grb (Driver.next_hue h) 100 100 = Some f'
    /\ changed_bytes f f' = 1%nat
    /\ 8 <= total_change f f' <= 9.
Proof.
  intros Hh Heven.
  pose proof smooth_steps as Hall. rewrite forallb_forall in Hall.
  assert (Hin : In h (map (fun k => 2 * k) (Zrange 0 180))).
  { apply in_map_iff. exists (h / 2). split.
    - Z.div_mod_to_equations. lia.
    - apply in_Zrange. Z.div_mod_to_equations. lia. }
  specialize (Hall h Hin). unfold smooth_step_ok, frame_at in Hall.
  destruct (ConverterFacts.hsv_to_grb_full_defined h) as (g & r & b & E).
  destruct (ConverterFacts.hsv_to_grb_full_defined (Driver.next_hue h))
    as (g' & r' & b' & E').
  rewrite E, E' in Hall. cbv zeta in Hall.
  apply andb_true_iff in Hall. destruct Hall as [Hall Hhi].
  apply andb_true_iff in Hall. destruct Hall as [Hone Hlo].
  apply Nat.eqb_eq in Hone. apply Z.leb_le in Hlo. apply Z.leb_le in Hhi.
  exists [g; r; b], [g'; r'; b']. repeat split; assumption.
Qed.

Lemma step_changes_one_byte_witness :
  0 <= 58 < 360 /\ 58 mod 2 = 0
  /\ exists f f',
       Onboard.hsv_to_grb 58 100 100 = Some f
       /\ Onboard.hsv_to_grb (Driver.next_hue 58) 100 100 = Some f'
       /\ changed_bytes f f' = 1%nat
       /\ 8 <= total_change f f' <= 9.
Proof.
  split; [lia|]. split; [reflexivity|].
  apply (step_changes_one_byte 58); [lia | reflexivity].
Defined.

End WheelFacts.

(** * Further facts about the two programs *)

Module ProgramFacts.
Import Rmt Driver Runs Wire DriverFacts.

(** The example's converter is the driver's. *)
Lemma example_hsv_to_grb h s v : Example.hsv_to_grb h s v = Onboard.hsv_to_grb h s v.
Proof.
  unfold Onboard.hsv_to_grb, Example.hsv_to_grb, Onboard.select_rgb.
  reflexivity.
Qed.

Lemma uint8_of_float_byte x z : CFloat.uint8_of_float x = Some z -> is_byte z.
Proof.
  unfold CFloat.uint8_of_float, is_byte.
  destruct (CFloat.trunc x) as [t|]; [|discriminate].
  destruct ((0 <=? t) && (t <=? 255)) eqn:E; [|discriminate].
  intros H. injection H as <-.
  apply andb_true_iff in E. destruct E as [A B].
  apply Z.leb_le in A. apply Z.leb_le in B. lia.
Qed.

(** Whatever the arguments, a defined result is three bytes. *)
Lemma hsv_to_grb_bytes h s v f :
  Onboard.hsv_to_grb h s v = Some f -> length f = 3%nat /\ Forall is_byte f.
Proof.
  unfold Onboard.hsv_to_grb. cbv zeta.
  destruct (Onboard.select_rgb _ _ _) as [[r g] b].
  repeat match goal with
         | |- context [match CFloat.uint8_of_float ?x with _ => _ end] =>
             let E := fresh "E" in
             destruct (CFloat.uint8_of_float x) eqn:E; [|discriminate]
         end.
  intros H. injection H as <-. split; [reflexivity|].
  repeat constructor; eapply uint8_of_float_byte; eassumption.
Qed.

Section Facts.
Context {World : Type} {drv : driver World}.
Implicit Types m : machine World.

(** One round of the example's loop, once the frame is known. *)
Lemma rainbow_S n ch enc cfg f0 h m g r b :
  Onboard.hsv_to_grb h 100 100 = Some [g; r; b] ->
  ExampleMain.rainbow (S n) ch enc cfg f0 h m =
    (if fst (rmt_transmit ch enc [g; r; b] 3 cfg (world m)) =? ESP_OK
     then ExampleMain.rainbow n ch enc cfg [g; r; b] (next_hue h)
            {| world := vTaskDelay_ms RAINBOW_SPEED
                          (snd (rmt_transmit ch enc [g; r; b] 3 cfg (world m)));
               controller := controller m;
               console := if logs_at h
                          then console m ++ [HueRecord h g r b]
                          else console m |}
     else Aborted (fst (rmt_transmit ch enc [g; r; b] 3 cfg (world m)))
            {| world := snd (rmt_transmit ch enc [g; r; b] 3 cfg (world m));
               controller := controller m;
               console := console m |}).
Proof.
  intros Hf. cbn [ExampleMain.rainbow].
  unfold bind, defined, sdk, ESP_ERROR_CHECK.
  rewrite example_hsv_to_grb, Hf.
  destruct (rmt_transmit ch enc [g; r; b] 3 cfg (world m)) as [e w'].
  cbn [fst snd world controller console].
  destruct (e =? ESP_OK); [|reflexivity].
  unfold logs_at, ESP_LOGI, ret.
  destruct (Z.rem h 10 =? 0); reflexivity.
Qed.

Lemma loops_agree n : forall m m2 f0,
  world m2 = world m -> console m2 = console m ->
  grb_data (controller m) = f0 ->
  of_example (ExampleMain.rainbow n (channel (controller m)) (encoder (controller m))
                {| loop_count := 0 |} f0 (hue m) m2)
  = of_onboard (rainbow_loop n m).
Proof.
  induction n as [|n IH]; intros m m2 f0 Hw Hc Hf.
  - cbn. rewrite Hw, Hc, Hf. reflexivity.
  - destruct (update_led_color_cases m) as (g & r & b & Hfr & E).
    rewrite rainbow_loop_S, E, (rainbow_S _ _ _ _ _ _ _ g r b Hfr).
    unfold transmission. rewrite Hw.
    destruct (rmt_transmit _ _ _ _ _ _) as [e w']. cbn [fst snd].
    destruct (e =? ESP_OK).
    + rewrite Hc.
      apply (IH (delayed (after_step m [g; r; b] w'))); reflexivity.
    + cbn. rewrite Hc. reflexivity.
Qed.

(** Start-up, call by call. *)
Lemma app_main_startup n w junk :
  app_main n (boot w junk) =
    (let '(e1, h1, w1) := rmt_new_tx_channel channel_request w in
     if e1 =? ESP_OK then
       let '(e2, h2, w2) := rmt_new_led_strip_encoder encoder_request w1 in
       if e2 =? ESP_OK then
         let '(e3, w3) := rmt_enable h1 w2 in
         if e3 =? ESP_OK then
           rainbow_loop n
             {| world := w3;
                controller := {| channel := h1; encoder := h2;
                                 grb_data := [0; 0; 0]; current_hue := 0 |};
                console := [Starting] |}
         else Aborted e3 {| world := w3; controller := junk; console := [Starting] |}
       else Aborted e2 {| world := w2; controller := junk; console := [Starting] |}
     else Aborted e1 {| world := w1; controller := junk; console := [Starting] |}).
Proof.
  unfold app_main, initialize_led_controller, bind, ESP_LOGI, sdk,
    ESP_ERROR_CHECK, set_controller, ret, boot.
  cbn [world controller console app].
  change {| clk_src := RMT_CLK_SRC_DEFAULT; gpio_num := LED_GPIO;
            mem_block_symbols := RMT_MEM_BLOCKS;
            resolution_hz := RMT_RESOLUTION_HZ; trans_queue_depth := 4 |}
    with (@channel_request World drv).
  change {| resolution := RMT_RESOLUTION_HZ |} with encoder_request.
  destruct (rmt_new_tx_channel channel_request w) as [[e1 h1] w1].
  cbn [fst snd world controller console].
  destruct (e1 =? ESP_OK); [|reflexivity].
  cbn [fst snd world controller console].
  destruct (rmt_new_led_strip_encoder encoder_request w1) as [[e2 h2] w2].
  cbn [fst snd world controller console].
  destruct (e2 =? ESP_OK); [|reflexivity].
  cbn [fst snd world controller console channel].
  destruct (rmt_enable h1 w2) as [e3 w3].
  cbn [fst snd world controller console channel].
  destruct (e3 =? ESP_OK); reflexivity.
Qed.

Lemma example_app_main_startup n w junk :
  ExampleMain.app_main n (boot w junk) =
    (let '(e1, h1, w1) := rmt_new_tx_channel channel_request w in
     if e1 =? ESP_OK then
       let '(e2, h2, w2) := rmt_new_led_strip_encoder encoder_request w1 in
       if e2 =? ESP_OK then
         let '(e3, w3) := rmt_enable h1 w2 in
         if e3 =? ESP_OK then
           ExampleMain.rainbow n h1 h2 {| loop_count := 0 |} [0; 0; 0] 0
             {| world := w3; controller := junk; console := [Starting] |}
         else Aborted e3 {| world := w3; controller := junk; console := [Starting] |}
       else Aborted e2 {| world := w2; controller := junk; console := [Starting] |}
     else Aborted e1 {| world := w1; controller := junk; console := [Starting] |}).
Proof.
  unfold ExampleMain.app_main, bind, ESP_LOGI, sdk, ESP_ERROR_CHECK, boot.
  cbn [world controller console app].
  change {| clk_src := RMT_CLK_SRC_DEFAULT; gpio_num := ExampleMain.LED_GPIO;
            mem_block_symbols := 64;
            resolution_hz := 10 * 1000 * 1000; trans_queue_depth := 4 |}
    with (@channel_request World drv).
  change {| resolution := 10 * 1000 * 1000 |} with encoder_request.
  destruct (rmt_new_tx_channel channel_request w) as [[e1 h1] w1].
  cbn [fst snd world controller console].
  destruct (e1 =? ESP_OK); [|reflexivity].
  cbn [fst snd world controller console].
  destruct (rmt_new_led_strip_encoder encoder_request w1) as [[e2 h2] w2].
  cbn [fst snd world controller console].
  destruct (e2 =? ESP_OK); [|reflexivity].
  cbn [fst snd world controller console channel].
  destruct (rmt_enable h1 w2) as [e3 w3].
  cbn [fst snd world controller console].
  destruct (e3 =? ESP_OK); reflexivity.
Qed.

(** X9. The two programs cannot be told apart: cut after the same
    number of rounds on the same peripheral, [app_main] of
    [led_strip_example_main.c] and [app_main] of
    [esp32s3_onboard_LED.c] leave the same peripheral state and the same
    console, and either hold the same frame and hue or were aborted
    with the same error code. *)
Theorem programs_agree n w junk :
  of_example (ExampleMain.app_main n (boot w junk))
  = of_onboard (app_main n (boot w junk)).
Proof.
  rewrite app_main_startup, example_app_main_startup.
  destruct (rmt_new_tx_channel channel_request w) as [[e1 h1] w1].
  destruct (e1 =? ESP_OK); [|reflexivity].
  destruct (rmt_new_led_strip_encoder encoder_request w1) as [[e2 h2] w2].
  destruct (e2 =? ESP_OK); [|reflexivity].
  destruct (rmt_enable h1 w2) as [e3 w3].
  destruct (e3 =? ESP_OK); [|reflexivity].
  apply (loops_agree n
           {| world := w3;
              controller := {| channel := h1; encoder := h2;
                               grb_data := [0; 0; 0]; current_hue := 0 |};
              console := [Starting] |}); reflexivity.
Qed.

(** X10. Start-up stops at the first call that fails: when
    [rmt_new_tx_channel], [rmt_new_led_strip_encoder] or [rmt_enable]
    reports an error, the program is aborted with that code whatever
    the number of rounds asked for; only the banner has been printed,
    the later calls were not made and no frame was sent.  When the
    three calls succeed the controller holds the two handles delivered,
    a dark frame and hue 0. *)
Theorem startup_stops_at_first_failure n w junk :
  let '(e1, h1, w1) := rmt_new_tx_channel channel_request w in
  let '(e2, h2, w2) := rmt_new_led_strip_encoder encoder_request w1 in
  let '(e3, w3) := rmt_enable h1 w2 in
  (e1 <> ESP_OK ->
   app_main n (boot w junk)
   = Aborted e1 {| world := w1; controller := junk; console := [Starting] |})
  /\ (e1 = ESP_OK -> e2 <> ESP_OK ->
      app_main n (boot w junk)
      = Aborted e2 {| world := w2; controller := junk; console := [Starting] |})
  /\ (e1 = ESP_OK -> e2 = ESP_OK -> e3 <> ESP_OK ->
      app_main n (boot w junk)
      = Aborted e3 {| world := w3; controller := junk; console := [Starting] |})
  /\ (e1 = ESP_OK -> e2 = ESP_OK -> e3 = ESP_OK ->
      app_main 0 (boot w junk)
      = Done tt {| world := w3;
                   controller := {| channel := h1; encoder := h2;
                                    grb_data := [0; 0; 0]; current_hue := 0 |};
                   console := [Starting] |}).
Proof.
  pose proof (app_main_startup n w junk) as En.
  pose proof (app_main_startup 0 w junk) as E0.
  destruct (rmt_new_tx_channel channel_request w) as [[e1 h1] w1].
  destruct (rmt_new_led_strip_encoder encoder_request w1) as [[e2 h2] w2].
  destruct (rmt_enable h1 w2) as [e3 w3].
  repeat split; intros;
    repeat match goal with
           | H : ?e = ESP_OK |- _ => apply Z.eqb_eq in H; rewrite H in *
           | H : ?e <> ESP_OK |- _ => apply Z.eqb_neq in H; rewrite H in *
           end; assumption.
Qed.

(** X11. The driver never runs into an undefined conversion: whatever
    the machine, also with stale memory and a hue outside [0,360), the
    loop and the whole program either complete their rounds or are
    aborted by an error check. *)
Theorem never_undefined n m :
  rainbow_loop n m <> Undefined /\ app_main n m <> Undefined.
Proof.
  assert (L : forall k m0, rainbow_loop k m0 <> Undefined).
  { induction k as [|k IH]; intros m0; [discriminate|].
    rewrite rainbow_loop_S.
    destruct (update_led_color_cases m0) as (g & r & b & _ & E). rewrite E.
    destruct (fst (transmission m0 [g; r; b]) =? ESP_OK); [apply IH | discriminate]. }
  split; [apply L|].
  unfold app_main, initialize_led_controller, bind, ESP_LOGI, sdk,
    ESP_ERROR_CHECK, set_controller, ret.
  cbn [world controller console].
  destruct (rmt_new_tx_channel _ _) as [[e1 h1] w1].
  cbn [fst snd world controller console].
  destruct (e1 =? ESP_OK); [|discriminate].
  destruct (rmt_new_led_strip_encoder _ _) as [[e2 h2] w2].
  cbn [fst snd world controller console].
  destruct (e2 =? ESP_OK); [|discriminate].
  destruct (rmt_enable _ _) as [e3 w3].
  cbn [fst snd world controller console].
  destruct (e3 =? ESP_OK); [apply L | discriminate].
Qed.

(** What every reachable state satisfies. *)
Lemma reachable_facts m :
  reachable m ->
  0 <= hue m < 360
  /\ hue m mod 2 = 0
  /\ length (grb_data (controller m)) = 3%nat
  /\ Forall is_byte (grb_data (controller m))
  /\ exists recs, console m = Starting :: recs /\ Forall record_ok recs.
Proof.
  intros Hr.
  induction Hr as [w junk m H|m m' _ IH Hup|m e m' _ IH Hup|m _ IH].
  - rewrite app_main_startup in H.
    destruct (rmt_new_tx_channel channel_request w) as [[e1 h1] w1].
    destruct (e1 =? ESP_OK); [|discriminate].
    destruct (rmt_new_led_strip_encoder encoder_request w1) as [[e2 h2] w2].
    destruct (e2 =? ESP_OK); [|discriminate].
    destruct (rmt_enable h1 w2) as [e3 w3].
    destruct (e3 =? ESP_OK); [|discriminate].
    cbn in H. injection H as <-. unfold hue. cbn.
    repeat split; try lia.
    + repeat constructor; unfold is_byte; lia.
    + exists []. split; [reflexivity | constructor].
  - destruct IH as (Hh & Heven & _ & _ & recs & Hc & Hrecs).
    destruct (update_led_color_cases m) as (g & r & b & Hf & E).
    rewrite E in Hup.
    destruct (fst (transmission m [g; r; b]) =? ESP_OK); [|discriminate].
    injection Hup as <-.
    set (m1 := after_step m [g; r; b] _).
    assert (Hh1 : hue m1 = (hue m + 2) mod 360)
      by (unfold m1, hue at 1; cbn [after_step controller current_hue];
          apply next_hue_mod; lia).
    rewrite !Hh1. unfold m1. cbn [after_step controller grb_data console].
    split; [apply Z.mod_pos_bound; lia|].
    split.
    { rewrite Z.mod_mod_divide by (exists 180; reflexivity).
      replace (hue m + 2) with (hue m + 1 * 2) by lia.
      rewrite Z.mod_add by lia. exact Heven. }
    destruct (hsv_to_grb_bytes _ _ _ _ Hf) as (Hlen & Hbytes).
    split; [exact Hlen|]. split; [exact Hbytes|].
    rewrite logs_at_mod by lia.
    destruct (hue m mod 10 =? 0) eqn:E10.
    + exists (recs ++ [HueRecord (hue m) g r b]). split.
      * rewrite Hc. reflexivity.
      * apply Forall_app. split; [exact Hrecs|].
        constructor; [|constructor].
        apply Z.eqb_eq in E10. cbn. repeat split; try lia. exact Hf.
    + exists recs. split; assumption.
  - destruct IH as (Hh & Heven & _ & _ & recs & Hc & Hrecs).
    destruct (update_led_color_cases m) as (g & r & b & Hf & E).
    rewrite E in Hup.
    destruct (fst (transmission m [g; r; b]) =? ESP_OK); [discriminate|].
    injection Hup as _ <-.
    destruct (hsv_to_grb_bytes _ _ _ _ Hf) as (Hlen & Hbytes).
    set (m1 := at_abort m [g; r; b] _).
    assert (Hh1 : hue m1 = hue m) by reflexivity.
    rewrite !Hh1. unfold m1. cbn [at_abort controller grb_data console].
    repeat split; try assumption; try apply Hh.
    exists recs. split; assumption.
  - exact IH.
Qed.

(** X12. The driver shows even hues only: in every reachable state the
    hue is even, so of the 360 hues the LED is sent 180. *)
Theorem reachable_hue_even m : reachable m -> hue m mod 2 = 0.
Proof. intros Hr. apply (reachable_facts m Hr). Qed.

(** X14. The console tells the truth about the wire: in every reachable
    state it is the banner followed by hue records only, and each
    record carries a hue in [0,360) that is a multiple of 10 together
    with the three bytes [hsv_to_grb] gives for that hue. *)
Theorem console_matches_wire m :
  reachable m ->
  exists recs, console m = Starting :: recs /\ Forall record_ok recs.
Proof. intros Hr. apply (reachable_facts m Hr). Qed.

(** X15. What the loop does to the peripheral: [n] completed rounds
    amount to [n] times one [rmt_transmit] of the current hue's frame,
    three bytes long with [loop_count] 0, followed by one delay of 20
    ms, for the hues [h], [h+2], ... in turn; the two handles are passed
    unchanged and stay in the controller. *)
Theorem loop_drives_peripheral n : forall m m',
  rainbow_loop n m = Done tt m' ->
  world m' = peripheral_after n (channel (controller m)) (encoder (controller m))
               (hue m) (world m)
  /\ channel (controller m') = channel (controller m)
  /\ encoder (controller m') = encoder (controller m).
Proof.
  induction n as [|n IH]; intros m m' Hrun.
  - cbn in Hrun. injection Hrun as <-. repeat split.
  - rewrite rainbow_loop_S in Hrun.
    destruct (update_led_color_cases m) as (g & r & b & Hf & E).
    rewrite E in Hrun.
    destruct (fst (transmission m [g; r; b]) =? ESP_OK); [|discriminate].
    destruct (IH _ _ Hrun) as (Hw & Hch & Henc).
    rewrite Hw, Hch, Henc. cbn [peripheral_after].
    unfold Wheel.frame_at. rewrite Hf. repeat split.
Qed.

(** X17. An aborted loop stopped at its first failing transmission: if
    [n] rounds end aborted with [e], then some [k < n] rounds completed
    and the step of round [k+1] was aborted with [e], which is not
    [ESP_OK]; the machine at the abort has the hue and the console that
    round started with. *)
Theorem loop_abort_is_first_failure n : forall m e m',
  rainbow_loop n m = Aborted e m' ->
  exists k mk,
    (k < n)%nat
    /\ rainbow_loop k m = Done tt mk
    /\ update_led_color mk = Aborted e m'
    /\ e <> ESP_OK
    /\ hue m' = hue mk
    /\ console m' = console mk.
Proof.
  induction n as [|n IH]; intros m e m' Hrun; [discriminate|].
  rewrite rainbow_loop_S in Hrun.
  destruct (update_led_color m) as [[] m1|e1 m1|] eqn:Hup; try discriminate.
  - destruct (IH _ _ _ Hrun) as (k & mk & Hk & Hdone & Hab & He & Hh & Hc).
    exists (S k), mk. split; [lia|]. split.
    + rewrite rainbow_loop_S, Hup. exact Hdone.
    + repeat split; assumption.
  - injection Hrun as <- <-.
    destruct (update_aborted m e1 m1 Hup) as (Hh & Hc & He).
    exists O, m. split; [lia|]. split; [reflexivity|].
    repeat split; assumption.
Qed.

End Facts.

(** *** Runs on the test benches *)

Lemma startup_stops_at_first_failure_witness :
  @app_main nat Faults.no_enable 7 (boot 0%nat Bench.junk)
  = Aborted Faults.ESP_ERR_INVALID_STATE
      {| world := 3%nat; controller := Bench.junk; console := [Starting] |}
  /\ @app_main nat Bench.steady 0 (boot 0%nat Bench.junk)
     = Done tt {| world := 0%nat; controller := Bench.fresh; console := [Starting] |}.
Proof.
  split.
  - exact (proj1 (proj2 (proj2
             (@startup_stops_at_first_failure nat Faults.no_enable 7 0%nat Bench.junk)))
             eq_refl eq_refl ltac:(discriminate)).
  - exact (proj2 (proj2 (proj2
             (@startup_stops_at_first_failure nat Bench.steady 0 0%nat Bench.junk)))
             eq_refl eq_refl eq_refl).
Defined.

Lemma reachable_after_one_step :
  exists m1,
    @reachable nat Bench.steady m1
    /\ @update_led_color nat Bench.steady
         {| world := 0%nat; controller := Bench.fresh; console := [Starting] |}
       = Done tt m1.
Proof.
  eexists. split.
  - eapply reach_step.
    + apply reach_start with (w := 0%nat) (junk := Bench.junk).
      vm_compute. reflexivity.
    + vm_compute. reflexivity.
  - vm_compute. reflexivity.
Defined.

Lemma reachable_hue_even_witness :
  exists m1, @reachable nat Bench.steady m1 /\ hue m1 mod 2 = 0.
Proof.
  destruct reachable_after_one_step as (m1 & Hr & _).
  exists m1. split; [exact Hr|]. exact (@reachable_hue_even nat Bench.steady m1 Hr).
Defined.

Lemma console_matches_wire_witness :
  exists m1 recs,
    @reachable nat Bench.steady m1
    /\ console m1 = Starting :: recs /\ Forall record_ok recs.
Proof.
  destruct reachable_after_one_step as (m1 & Hr & _).
  destruct (@console_matches_wire nat Bench.steady m1 Hr) as (recs & Hc & Hrecs).
  exists m1, recs. split; [exact Hr|]. split; assumption.
Defined.

Lemma loop_drives_peripheral_witness :
  exists m',
    @rainbow_loop nat Bench.steady 3 (boot 0%nat Bench.fresh) = Done tt m'
    /\ world m' = @peripheral_after nat Bench.steady 3 1 2 0 0%nat
    /\ channel (controller m') = 1
    /\ encoder (controller m') = 2.
Proof.
  eexists. split; [vm_compute; reflexivity|].
  apply (@loop_drives_peripheral nat Bench.steady 3 (boot 0%nat Bench.fresh)).
  vm_compute. reflexivity.
Defined.

Lemma loop_abort_is_first_failure_witness :
  exists m' k mk,
    @rainbow_loop nat (Bench.faulty 2) 5 (boot 0%nat Bench.fresh)
    = Aborted Bench.ESP_FAIL m'
    /\ (k < 5)%nat
    /\ @rainbow_loop nat (Bench.faulty 2) k (boot 0%nat Bench.fresh) = Done tt mk
    /\ @update_led_color nat (Bench.faulty 2) mk = Aborted Bench.ESP_FAIL m'
    /\ hue m' = hue mk.
Proof.
  eexists.
  assert (E : @rainbow_loop nat (Bench.faulty 2) 5 (boot 0%nat Bench.fresh)
              = Aborted Bench.ESP_FAIL _) by (vm_compute; reflexivity).
  destruct (@loop_abort_is_first_failure nat (Bench.faulty 2) 5 _ _ _ E)
    as (k & mk & Hk & Hdone & Hab & _ & Hh & _).
  exists k, mk. split; [exact E|]. repeat split; assumption.
Defined.

End ProgramFacts.
